(** * Practical-ML-DS: the hand-written statistics of the notebooks

    Two notebooks carry code of their own:

    - "4. Non-parametric Tests.ipynb": the Wilcoxon signed-rank statistic
      [s_plus], computed from a sample and a hypothesised median;
    - the evaluation-metrics notebook: [precision], [recall] and [f1],
      computed from two sequences of class labels.

    Scope.  [s_plus] is the computation of the statistic (the two loops and
    the sort between them).  The lines after it build and print a table
    with pandas; they do not change [s_plus], but they fail on samples whose
    size does not fit the table: [signed_rank_cell] is the cell as a whole.

    Samples.  An observation is a finite number; [nan] and infinities are
    outside the model, and so are integers too large for a float.

    Numbers.  The signed-rank cell uses its observations only through
    subtraction of the median, the test [diff < 0], [np.abs], equality of
    dictionary keys and [np.sort].  Observations are therefore modelled as
    exact numbers on a fixed-point grid: an integer [x : Z] stands for
    [x] millionths, the precision at which the notebook prints its data.
    Ranks and rank sums are Python integers, modelled as [Z]. *)

From Stdlib Require Import ZArith QArith Lia Lqa.
From stdpp Require Import gmap list sorting.

Local Open Scope Z_scope.

(** ** Results of Python code

    A cell or function either returns a value or raises.  The exceptions
    the modelled code can raise are a failed dictionary lookup, a division
    by zero, and the [ValueError] of pandas and numpy on arrays whose
    lengths do not fit. *)

Inductive exn : Set := KeyError | ZeroDivisionError | ValueError.

Inductive outcome (A : Type) : Type :=
  | Return (a : A)
  | Raise (e : exn).
Arguments Return {A} a.
Arguments Raise {A} e.

#[global] Instance outcome_ret : MRet outcome := λ A a, Return a.

#[global] Instance outcome_bind : MBind outcome := λ A B k m,
  match m with
  | Return a => k a
  | Raise e => Raise e
  end.

Definition succeeds {A : Type} (m : outcome A) : Prop := ∃ a, m = Return a.

(** ** Wilcoxon signed-rank statistic *)

Module Wilcoxon.

(** The two strings ['+'] and ['-'] stored in the dictionary [signs]. *)
Inductive sign : Set := Plus | Minus.

#[global] Instance sign_eq_dec : EqDecision sign.
Proof. solve_decision. Defined.

Definition flip_sign (s : sign) : sign :=
  match s with Plus => Minus | Minus => Plus end.

(** [diffs = data - median] *)
Definition diffs (data : list Z) (median : Z) : list Z :=
  (λ x, x - median) <$> data.

(** State of the first loop: the dictionary [signs] and the array
    [absolute_diffs]. *)
Record tracking : Type := Tracking {
  tr_signs : gmap Z sign;
  tr_absolute_diffs : list Z
}.

(** Body of [for diff in diffs]: append [np.abs(diff)], then store the sign
    under the key [np.abs(diff)], overwriting what the key held. *)
Definition track (st : tracking) (diff : Z) : tracking :=
  let absolute_diffs := tr_absolute_diffs st ++ [Z.abs diff] in
  if diff <? 0
  then Tracking (<[Z.abs diff := Minus]> (tr_signs st)) absolute_diffs
  else Tracking (<[Z.abs diff := Plus]> (tr_signs st)) absolute_diffs.

Definition tracked (ds : list Z) : tracking :=
  foldl track (Tracking ∅ []) ds.

Definition signs (ds : list Z) : gmap Z sign := tr_signs (tracked ds).
Definition absolute_diffs (ds : list Z) : list Z := tr_absolute_diffs (tracked ds).

(** [np.sort]: ascending order.  On numbers the sorted array is determined by
    its contents, so any sorting algorithm gives the array numpy gives. *)
Definition np_sort (l : list Z) : list Z := merge_sort Z.le l.

Definition sorted_absolute_diffs (ds : list Z) : list Z :=
  np_sort (absolute_diffs ds).

(** [enumerate(sorted_absolute_diffs)] with the rank [idx+1] in place of
    [idx]: the rank and the absolute difference of each position. *)
Definition ranked (sorted : list Z) : list (Z * Z) :=
  imap (λ idx diff, (Z.of_nat idx + 1, diff)) sorted.

(** The second loop, from position [idx] on with accumulator [acc]:
    [if signs[diff] == which: acc += idx+1].  A key that is absent from the
    dictionary raises [KeyError]. *)
Fixpoint rank_sum (which : sign) (sgn : gmap Z sign) (idx : nat)
    (sorted : list Z) (acc : Z) : outcome Z :=
  match sorted with
  | [] => Return acc
  | diff :: rest =>
      match sgn !! diff with
      | None => Raise KeyError
      | Some s =>
          rank_sum which sgn (S idx) rest
            (if decide (s = which) then acc + (Z.of_nat idx + 1) else acc)
      end
  end.

(** The statistic of the cell: [s_plus = 0], then the loop testing ['+']. *)
Definition s_plus (data : list Z) (median : Z) : outcome Z :=
  let ds := diffs data median in
  rank_sum Plus (signs ds) 0 (sorted_absolute_diffs ds) 0.

(** The signs in rank order, [ordered_signs] of the cell. *)
Definition ordered_signs (ds : list Z) : list (option sign) :=
  (λ a, signs ds !! a) <$> sorted_absolute_diffs ds.

(** The ranks the second loop adds to [s_plus]. *)
Definition plus_ranks (ds : list Z) : list Z :=
  fst <$> filter (λ p, signs ds !! p.2 = Some Plus) (ranked (sorted_absolute_diffs ds)).

(** Rank of an observation: the rank [idx+1] at which its absolute
    difference stands in the sorted array (the first such position). *)
Definition rank_of (sorted : list Z) (a : Z) : option Z :=
  (λ ip : nat * (Z * Z), ip.2.1) <$> list_find (λ p : Z * Z, p.2 = a) (ranked sorted).

Definition observation_ranks (ds : list Z) : list (option Z) :=
  rank_of (sorted_absolute_diffs ds) <$> absolute_diffs ds.

(** The sample of the notebook ([amazon_data.csv], column ["0"]) as the cell
    prints it, in millionths, and the hypothesised median 30. *)
Definition micro : Z := 1000000.

Definition offset_data : list Z :=
  [57925694; 40574152; 30232974; 20853756; 21355134; 14037427; 31696030;
    5784466; 65960599; 50994944; 30970240;  9928767; 25292288; 12350119;
   28262646; 20945894; 54300015].

Definition median0 : Z := 30 * micro.

(** The table lines of the cell.  The column ["ranks"] is [range(1, 18)]:
    pandas refuses a column whose length differs from the number of rows of
    the frame, unless the frame has no row. *)
Definition table_rows : nat := 17.

(** The cell as a whole: [s_plus], then the table, then [s_plus] printed. *)
Definition signed_rank_cell (data : list Z) (median : Z) : outcome Z :=
  s ← s_plus data median;
  if decide (length data = 0%nat ∨ length data = table_rows)
  then Return s else Raise ValueError.

End Wilcoxon.

(** ** Classification metrics *)

Module Metrics.

(** [tp / (tp + fp)] on Python integers: true division, which raises
    [ZeroDivisionError] on a zero divisor.  The quotient is kept exact. *)
Definition true_div (a b : Z) : outcome Q :=
  if decide (b = 0) then Raise ZeroDivisionError
  else Return (inject_Z a / inject_Z b)%Q.

(** Division of two Python floats, exact here; it raises on a zero divisor
    as well. *)
Definition float_div (a b : Q) : outcome Q :=
  if Qeq_bool b 0 then Raise ZeroDivisionError else Return (a / b)%Q.

(** Body of the loop of [precision] on the counters [(tp, fp)]. *)
Definition precision_step (c : Z * Z) (lp : Z * Z) : Z * Z :=
  let '(tp, fp) := c in
  let '(label, prediction) := lp in
  if decide (prediction = 1) then
    if decide (label = 1) then (tp + 1, fp) else (tp, fp + 1)
  else (tp, fp).

Definition precision_counts (labels predictions : list Z) : Z * Z :=
  foldl precision_step (0, 0) (zip labels predictions).

Definition precision (labels predictions : list Z) : outcome Q :=
  let '(tp, fp) := precision_counts labels predictions in
  true_div tp (tp + fp).

(** Body of the loop of [recall] on the counters [(tp, fn)]. *)
Definition recall_step (c : Z * Z) (lp : Z * Z) : Z * Z :=
  let '(tp, fn) := c in
  let '(label, prediction) := lp in
  if decide (label = 1) then
    if decide (prediction = 1) then (tp + 1, fn) else (tp, fn + 1)
  else (tp, fn).

Definition recall_counts (labels predictions : list Z) : Z * Z :=
  foldl recall_step (0, 0) (zip labels predictions).

Definition recall (labels predictions : list Z) : outcome Q :=
  let '(tp, fn) := recall_counts labels predictions in
  true_div tp (tp + fn).

Definition f1 (labels predictions : list Z) : outcome Q :=
  p ← precision labels predictions;
  r ← recall labels predictions;
  float_div (2 * (p * r))%Q (p + r)%Q.

End Metrics.

(** ** Accuracy *)

Module Accuracy.

(** A numpy float: a number, kept exact, or [nan]. *)
Inductive npfloat : Type := Num (q : Q) | NaN.

(** [(predictions == labels).astype(int)], for two arrays of one length:
    1 where the entries agree, 0 where they differ. *)
Definition matches (labels predictions : list Z) : list Z :=
  zip_with (λ prediction label, if decide (prediction = label) then 1 else 0)
    predictions labels.

(** [np.mean] of an integer array: the sum over the size; on the empty array
    numpy warns and returns [nan]. *)
Definition np_mean (a : list Z) : npfloat :=
  match a with
  | [] => NaN
  | _ => Num (inject_Z (foldr Z.add 0%Z a) / inject_Z (Z.of_nat (length a)))
  end.

Definition accuracy (labels predictions : list Z) : npfloat :=
  np_mean (matches labels predictions).

(** [accuracy] on arrays of any two lengths.  [predictions == labels]
    compares arrays of one length entry by entry, stretches an array of
    length 1 to the length of the other, and raises [ValueError] on any
    other pair of lengths. *)
Definition accuracy_of_arrays (labels predictions : list Z) : outcome npfloat :=
  if decide (length labels = length predictions) then
    Return (accuracy labels predictions)
  else
    match labels, predictions with
    | [l], _ => Return (accuracy (replicate (length predictions) l) predictions)
    | _, [p] => Return (accuracy labels (replicate (length labels) p))
    | _, _ => Raise ValueError
    end.

End Accuracy.

Import Wilcoxon Metrics.
Import Accuracy.

(** * Properties *)

(** N(N+1)/2, the sum of the ranks 1..N. *)
Definition rank_total (n : nat) : Z := Z.of_nat n * (Z.of_nat n + 1) / 2.

Definition sum_ranks (l : list Z) : Z := foldr Z.add 0 l.

Definition sign_of (diff : Z) : sign := if diff <? 0 then Minus else Plus.

(** Number of observations that differ from the centre. *)
Definition nonzero_count (data : list Z) (median : Z) : nat :=
  length (filter (λ d, d ≠ 0) (diffs data median)).

(** [ranked], from position [idx] on. *)
Definition ranked_from (idx : nat) (l : list Z) : list (Z * Z) :=
  imap (λ i diff, (Z.of_nat (idx + i) + 1, diff)) l.

(** The ranks of the positions whose sign is [which]. *)
Definition selected (which : sign) (sgn : gmap Z sign) (pairs : list (Z * Z)) : list Z :=
  fst <$> filter (λ p, sgn !! p.2 = Some which) pairs.

(** Rank of the observation whose difference is [d]: the rank of its
    magnitude, 0 when the magnitude is not in the sorted array. *)
Definition own_rank (ds : list Z) (d : Z) : Z :=
  default 0 (rank_of (sorted_absolute_diffs ds) (Z.abs d)).

(** Ranks of the observations that do not lie below the centre, in sample
    order. *)
Definition nonneg_ranks (ds : list Z) : list Z :=
  own_rank ds <$> filter (λ d, 0 ≤ d) ds.

(** Rank of a difference by counting: one more than the number of
    observations of smaller magnitude. *)
Definition magnitude_rank (ds : list Z) (d : Z) : Z :=
  1 + Z.of_nat (length (filter (λ a, a < Z.abs d) (absolute_diffs ds))).

(** A sample of 17 observations, as many as the table of the cell has rows:
    30, 31, ..., 46; its first observation is the centre 30. *)
Definition centred_sample : list Z := seqZ 30 17.

(** The class a label counts as in [precision] and [recall]: positive (1)
    when it is 1, negative otherwise. *)
Definition positive_class (x : Z) : Z := if decide (x = 1) then 1 else 0.

(** The cells of the confusion matrix, counted over (label, prediction)
    pairs. *)
Definition true_positives (pairs : list (Z * Z)) : Z :=
  Z.of_nat (length (filter (λ lp, lp.1 = 1 ∧ lp.2 = 1) pairs)).
Definition false_positives (pairs : list (Z * Z)) : Z :=
  Z.of_nat (length (filter (λ lp, lp.1 ≠ 1 ∧ lp.2 = 1) pairs)).
Definition false_negatives (pairs : list (Z * Z)) : Z :=
  Z.of_nat (length (filter (λ lp, lp.1 = 1 ∧ lp.2 ≠ 1) pairs)).

(** ** The first loop *)

Section Tracking.

Lemma track_sign_of st d :
  track st d =
  Tracking (<[Z.abs d := sign_of d]> (tr_signs st)) (tr_absolute_diffs st ++ [Z.abs d]).
Proof. unfold track, sign_of. by destruct (d <? 0). Qed.

Lemma tracked_snoc ds d : tracked (ds ++ [d]) = track (tracked ds) d.
Proof. unfold tracked. by rewrite foldl_snoc. Qed.

Lemma signs_nil : signs [] = ∅.
Proof. reflexivity. Qed.

Lemma signs_snoc ds d : signs (ds ++ [d]) = <[Z.abs d := sign_of d]> (signs ds).
Proof. unfold signs. by rewrite tracked_snoc, track_sign_of. Qed.

Lemma absolute_diffs_snoc ds d :
  absolute_diffs (ds ++ [d]) = absolute_diffs ds ++ [Z.abs d].
Proof. unfold absolute_diffs. by rewrite tracked_snoc, track_sign_of. Qed.

Lemma absolute_diffs_fmap ds : absolute_diffs ds = Z.abs <$> ds.
Proof.
  induction ds as [|d ds IH] using rev_ind; [done|].
  by rewrite absolute_diffs_snoc, fmap_app, IH.
Qed.

Lemma length_absolute_diffs ds : length (absolute_diffs ds) = length ds.
Proof. by rewrite absolute_diffs_fmap, length_fmap. Qed.

(** Every absolute difference is a key of the dictionary. *)
Lemma signs_is_Some ds a : a ∈ absolute_diffs ds → is_Some (signs ds !! a).
Proof.
  induction ds as [|d ds IH] using rev_ind.
  - rewrite absolute_diffs_fmap. by intros ?%elem_of_nil.
  - rewrite absolute_diffs_snoc, signs_snoc, elem_of_app, list_elem_of_singleton.
    intros Ha. destruct (decide (Z.abs d = a)) as [->|Hne].
    + rewrite lookup_insert_eq. eauto.
    + rewrite lookup_insert_ne by done. destruct Ha; [auto | congruence].
Qed.

(** A stored sign is the sign of some difference of that magnitude. *)
Lemma signs_sound ds a s :
  signs ds !! a = Some s → ∃ d, d ∈ ds ∧ Z.abs d = a ∧ s = sign_of d.
Proof.
  induction ds as [|d ds IH] using rev_ind.
  - by rewrite signs_nil, lookup_empty.
  - rewrite signs_snoc. destruct (decide (Z.abs d = a)) as [<-|Hne].
    + rewrite lookup_insert_eq. intros [= <-]. exists d.
      split; [|done]. apply elem_of_app. right. by apply list_elem_of_singleton.
    + rewrite lookup_insert_ne by done. intros (d' & ? & ? & ?)%IH.
      exists d'. split; [|done]. apply elem_of_app. by left.
Qed.

Lemma sign_of_opp d : d ≠ 0 → sign_of (- d) = flip_sign (sign_of d).
Proof.
  intros Hd. unfold sign_of.
  destruct (Z.ltb_spec (- d) 0), (Z.ltb_spec d 0); simpl; try done; lia.
Qed.

(** Negating differences that are all nonzero flips every stored sign. *)
Lemma signs_opp ds :
  Forall (λ d, d ≠ 0) ds → signs (Z.opp <$> ds) = flip_sign <$> signs ds.
Proof.
  induction ds as [|d ds IH] using rev_ind; intros Hnz.
  - by rewrite signs_nil, fmap_empty.
  - apply Forall_app in Hnz as [Hds Hd%Forall_inv]. simpl in Hd.
    rewrite fmap_app. simpl. rewrite !signs_snoc, fmap_insert, IH by done.
    by rewrite Z.abs_opp, sign_of_opp.
Qed.

Lemma absolute_diffs_opp ds : absolute_diffs (Z.opp <$> ds) = absolute_diffs ds.
Proof.
  rewrite !absolute_diffs_fmap, <-list_fmap_compose.
  apply list_fmap_ext. intros _ d _. simpl. apply Z.abs_opp.
Qed.

End Tracking.

(** ** Sorting *)

Section Sorting.

Lemma np_sort_Permutation l : np_sort l ≡ₚ l.
Proof. apply merge_sort_Permutation. Qed.

Lemma np_sort_sorted l : StronglySorted Z.le (np_sort l).
Proof. apply (StronglySorted_merge_sort Z.le). Qed.

Lemma length_np_sort l : length (np_sort l) = length l.
Proof. by rewrite np_sort_Permutation. Qed.

Lemma elem_of_np_sort l a : a ∈ np_sort l ↔ a ∈ l.
Proof. by rewrite np_sort_Permutation. Qed.

(** The first element of the sorted array is a least element. *)
Lemma np_sort_head_le l x rest y : np_sort l = x :: rest → y ∈ l → x ≤ y.
Proof.
  intros Hs Hy. pose proof (np_sort_sorted l) as Hsorted.
  apply elem_of_np_sort in Hy. rewrite Hs in Hsorted, Hy.
  apply StronglySorted_inv in Hsorted as [_ Hall].
  apply elem_of_cons in Hy as [->|Hy]; [lia|].
  by apply (proj1 (Forall_forall _ _) Hall).
Qed.

Lemma length_sorted_absolute_diffs ds :
  length (sorted_absolute_diffs ds) = length ds.
Proof.
  unfold sorted_absolute_diffs. by rewrite length_np_sort, length_absolute_diffs.
Qed.

Lemma sorted_absolute_diffs_keys ds :
  Forall (λ a, is_Some (signs ds !! a)) (sorted_absolute_diffs ds).
Proof.
  apply Forall_forall. intros a Ha. apply signs_is_Some.
  by apply elem_of_np_sort.
Qed.

Lemma sorted_absolute_diffs_opp ds :
  sorted_absolute_diffs (Z.opp <$> ds) = sorted_absolute_diffs ds.
Proof. unfold sorted_absolute_diffs. by rewrite absolute_diffs_opp. Qed.

End Sorting.

(** ** The second loop *)

Section RankSum.

Lemma ranked_from_0 l : ranked_from 0 l = ranked l.
Proof. reflexivity. Qed.

Lemma ranked_from_cons idx a l :
  ranked_from idx (a :: l) = (Z.of_nat idx + 1, a) :: ranked_from (S idx) l.
Proof.
  unfold ranked_from. rewrite imap_cons. f_equal.
  - by rewrite Nat.add_0_r.
  - apply imap_ext. intros i x _. simpl. by rewrite Nat.add_succ_r.
Qed.

Lemma selected_cons which sgn r a pairs :
  selected which sgn ((r, a) :: pairs) =
  if decide (sgn !! a = Some which) then r :: selected which sgn pairs
  else selected which sgn pairs.
Proof.
  unfold selected. rewrite filter_cons. simpl. by destruct (decide _).
Qed.

Variable sgn : gmap Z sign.

(** The loop returns the accumulator plus the selected ranks, provided every
    element it meets is a key of the dictionary. *)
Lemma rank_sum_selected which idx l acc :
  Forall (λ a, is_Some (sgn !! a)) l →
  rank_sum which sgn idx l acc =
  Return (acc + sum_ranks (selected which sgn (ranked_from idx l))).
Proof.
  intros Hkeys. revert idx acc.
  induction Hkeys as [|a l [s Hs] _ IH]; intros idx acc; simpl.
  - f_equal. unfold sum_ranks, selected. simpl. lia.
  - rewrite Hs, IH, ranked_from_cons, selected_cons, Hs. f_equal.
    destruct (decide (s = which)) as [->|Hne].
    + rewrite decide_True by done. unfold sum_ranks. simpl. lia.
    + rewrite decide_False by congruence. done.
Qed.

Lemma sum_selected_nonneg which idx l :
  0 ≤ sum_ranks (selected which sgn (ranked_from idx l)).
Proof.
  revert idx. induction l as [|a l IH]; intros idx.
  - done.
  - rewrite ranked_from_cons, selected_cons. specialize (IH (S idx)).
    destruct (decide _); [|done]. unfold sum_ranks in *. simpl. lia.
Qed.

(** Each position is selected by exactly one of the two signs. *)
Lemma sum_selected_both idx l :
  Forall (λ a, is_Some (sgn !! a)) l →
  2 * (sum_ranks (selected Plus sgn (ranked_from idx l)) +
       sum_ranks (selected Minus sgn (ranked_from idx l))) =
  Z.of_nat (length l) * (2 * Z.of_nat idx + Z.of_nat (length l) + 1).
Proof.
  intros Hkeys. revert idx.
  induction Hkeys as [|a l [s Hs] _ IH]; intros idx.
  - done.
  - rewrite ranked_from_cons, !selected_cons, Hs. specialize (IH (S idx)).
    destruct s; repeat case_decide; try congruence;
      unfold sum_ranks in *; simpl; lia.
Qed.

Lemma sum_selected_all which idx l :
  Forall (λ a, sgn !! a = Some which) l →
  2 * sum_ranks (selected which sgn (ranked_from idx l)) =
  Z.of_nat (length l) * (2 * Z.of_nat idx + Z.of_nat (length l) + 1).
Proof.
  intros Hall. revert idx.
  induction Hall as [|a l Hs _ IH]; intros idx.
  - done.
  - rewrite ranked_from_cons, selected_cons, decide_True by done.
    specialize (IH (S idx)). unfold sum_ranks in *. simpl. lia.
Qed.

Lemma selected_none which idx l :
  Forall (λ a, sgn !! a ≠ Some which) l →
  selected which sgn (ranked_from idx l) = [].
Proof.
  intros Hall. revert idx.
  induction Hall as [|a l Hs _ IH]; intros idx.
  - done.
  - by rewrite ranked_from_cons, selected_cons, decide_False.
Qed.

Lemma selected_flip which pairs :
  selected which (flip_sign <$> sgn) pairs = selected (flip_sign which) sgn pairs.
Proof.
  induction pairs as [|[r a] pairs IH]; [done|].
  rewrite !selected_cons, IH, lookup_fmap.
  destruct (sgn !! a) as [[]|], which; simpl; done.
Qed.

End RankSum.

Lemma rank_total_double n v :
  2 * v = Z.of_nat n * (Z.of_nat n + 1) → v = rank_total n.
Proof.
  intros Hv. unfold rank_total. rewrite <-Hv.
  symmetry. rewrite Z.mul_comm. by apply Z.div_mul.
Qed.

(** ** The statistic *)

Section Statistic.

Lemma length_diffs data median : length (diffs data median) = length data.
Proof. apply length_fmap. Qed.

Lemma plus_ranks_selected ds :
  plus_ranks ds = selected Plus (signs ds) (ranked (sorted_absolute_diffs ds)).
Proof. reflexivity. Qed.

Lemma s_plus_sum data median :
  s_plus data median = Return (sum_ranks (plus_ranks (diffs data median))).
Proof.
  unfold s_plus. rewrite rank_sum_selected by apply sorted_absolute_diffs_keys.
  by rewrite Z.add_0_l.
Qed.

(** The cell never raises: every key the second loop looks up was stored by
    the first. *)
Lemma s_plus_succeeds data median : succeeds (s_plus data median).
Proof. rewrite s_plus_sum. by eexists. Qed.

Lemma s_plus_nonneg data median v : s_plus data median = Return v → 0 ≤ v.
Proof.
  rewrite s_plus_sum. intros [= <-]. apply (sum_selected_nonneg _ Plus 0%nat).
Qed.

(** The sign stored for a magnitude, when all differences have one sign. *)
Lemma signs_uniform ds s :
  Forall (λ d, sign_of d = s) ds →
  Forall (λ a, signs ds !! a = Some s) (sorted_absolute_diffs ds).
Proof.
  intros Hall. apply Forall_forall. intros a Ha.
  apply elem_of_np_sort, signs_is_Some in Ha as [s' Hs'].
  rewrite Hs'. f_equal.
  apply signs_sound in Hs' as (d & Hd & _ & ->).
  by apply (proj1 (Forall_forall _ _) Hall).
Qed.

Lemma s_plus_all_plus data median :
  Forall (λ d, sign_of d = Plus) (diffs data median) →
  s_plus data median = Return (rank_total (length data)).
Proof.
  intros Hall. rewrite s_plus_sum. f_equal. apply rank_total_double.
  rewrite plus_ranks_selected, <-ranked_from_0.
  rewrite (sum_selected_all _ Plus) by by apply signs_uniform.
  rewrite length_sorted_absolute_diffs, length_diffs. lia.
Qed.

Lemma s_plus_all_minus data median :
  Forall (λ d, sign_of d = Minus) (diffs data median) →
  s_plus data median = Return 0.
Proof.
  intros Hall. rewrite s_plus_sum. f_equal.
  rewrite plus_ranks_selected, <-ranked_from_0, selected_none; [done|].
  eapply Forall_impl; [by apply signs_uniform|]. simpl. congruence.
Qed.

Lemma Forall_diffs (P : Z → Prop) data median :
  Forall (λ x, P (x - median)) data → Forall P (diffs data median).
Proof. intros H. unfold diffs. by apply Forall_fmap. Qed.

Lemma nonzero_count_all data median :
  Forall (λ x, x ≠ median) data → nonzero_count data median = length data.
Proof.
  intros Hall. unfold nonzero_count, diffs.
  induction Hall as [|x data Hx _ IH]; [done|].
  rewrite fmap_cons, filter_cons_True by lia. simpl. by rewrite IH.
Qed.

End Statistic.

(** ** Ranks of observations *)

Section Ranks.

Lemma fst_ranked_from idx l :
  fst <$> ranked_from idx l = seqZ (Z.of_nat idx + 1) (Z.of_nat (length l)).
Proof.
  revert idx. induction l as [|a l IH]; intros idx.
  - done.
  - rewrite ranked_from_cons, fmap_cons, IH, (seqZ_cons (Z.of_nat idx + 1)).
    + simpl fst. do 2 f_equal; simpl length; lia.
    + simpl length. lia.
Qed.

(** The ranks handed out are 1, 2, ..., n in this order. *)
Lemma fst_ranked l : fst <$> ranked l = seqZ 1 (Z.of_nat (length l)).
Proof. rewrite <-ranked_from_0. apply fst_ranked_from. Qed.

Lemma elem_of_ranked l r a :
  (r, a) ∈ ranked l ↔ ∃ idx, l !! idx = Some a ∧ r = Z.of_nat idx + 1.
Proof.
  unfold ranked. rewrite elem_of_lookup_imap. split.
  - intros (i & x & [= -> ->] & Hi). eauto.
  - intros (i & Hi & ->). eauto.
Qed.

(** Without ties, the rank of a value is its position in the sorted array. *)
Lemma rank_of_lookup l idx a :
  NoDup l → l !! idx = Some a → rank_of l a = Some (Z.of_nat idx + 1).
Proof.
  intros Hnd Hidx. unfold rank_of.
  assert (list_find (λ p : Z * Z, p.2 = a) (ranked l)
          = Some (idx, (Z.of_nat idx + 1, a))) as ->; [|done].
  apply list_find_Some. unfold ranked. rewrite list_lookup_imap, Hidx.
  split; [done|]. split; [done|].
  intros j [r b] Hj Hlt Hb. simpl in Hb. subst b.
  rewrite list_lookup_imap in Hj.
  destruct (l !! j) as [b|] eqn:Hlj; simplify_eq/=.
  pose proof (NoDup_lookup _ _ _ _ Hnd Hlj Hidx). lia.
Qed.

Lemma rank_of_sorted l :
  NoDup l → rank_of l <$> l = Some <$> seqZ 1 (Z.of_nat (length l)).
Proof.
  intros Hnd. apply list_eq. intros i.
  rewrite !list_lookup_fmap.
  destruct (l !! i) as [a|] eqn:Hi; simpl.
  - rewrite (rank_of_lookup l i a) by done.
    rewrite lookup_seqZ_lt; [simpl; do 2 f_equal; lia|].
    apply lookup_lt_Some in Hi. lia.
  - rewrite lookup_seqZ_ge; [done|]. apply lookup_ge_None in Hi. lia.
Qed.

Lemma Permutation_fmap_Some {A} (l : list (option A)) (k : list A) :
  l ≡ₚ Some <$> k → ∃ k', l = Some <$> k' ∧ k' ≡ₚ k.
Proof.
  intros Hp. exists (omap id l).
  assert (Forall is_Some l) as Hall.
  { rewrite Hp. apply Forall_fmap, Forall_true. simpl. eauto. }
  split.
  - clear Hp. induction Hall as [|? l [x ->] _ IH]; [done|].
    simpl. by rewrite IH at 1.
  - rewrite Hp. clear. induction k as [|x k IH]; [done|]. simpl.
    by rewrite IH.
Qed.

(** Without ties, the ranks of the observations, taken in sample order, are
    a rearrangement of 1..n. *)
Lemma observation_ranks_Permutation ds :
  NoDup (absolute_diffs ds) →
  ∃ rs, observation_ranks ds = Some <$> rs ∧
        rs ≡ₚ seqZ 1 (Z.of_nat (length ds)).
Proof.
  intros Hnd. apply Permutation_fmap_Some.
  unfold observation_ranks.
  rewrite <-(length_sorted_absolute_diffs ds), <-rank_of_sorted.
  - apply fmap_Permutation. symmetry. apply np_sort_Permutation.
  - unfold sorted_absolute_diffs. by rewrite np_sort_Permutation.
Qed.

Lemma rank_unique l a r r' :
  NoDup l → (r, a) ∈ ranked l → (r', a) ∈ ranked l → r = r'.
Proof.
  intros Hnd (i & Hi & ->)%elem_of_ranked (j & Hj & ->)%elem_of_ranked.
  by rewrite (NoDup_lookup _ _ _ _ Hnd Hi Hj).
Qed.

(** A position holding a magnitude whose stored sign is ['+'] contributes
    its rank. *)
Lemma plus_ranks_lookup ds idx a :
  sorted_absolute_diffs ds !! idx = Some a →
  signs ds !! a = Some Plus →
  Z.of_nat idx + 1 ∈ plus_ranks ds.
Proof.
  intros Hidx Hs. unfold plus_ranks.
  apply list_elem_of_fmap. exists (Z.of_nat idx + 1, a). split; [done|].
  apply list_elem_of_filter. split; [done|].
  apply elem_of_ranked. eauto.
Qed.

Lemma sum_ranks_elem_of l r :
  Forall (λ x, 0 ≤ x) l → r ∈ l → r ≤ sum_ranks l.
Proof.
  induction 1 as [|x l Hx Hl IH]; [by intros ?%elem_of_nil|].
  assert (0 ≤ sum_ranks l).
  { clear IH. induction Hl; unfold sum_ranks in *; simpl; lia. }
  intros [->|Hr%IH]%elem_of_cons; unfold sum_ranks in *; simpl; lia.
Qed.

Lemma plus_ranks_pos ds : Forall (λ r, 0 ≤ r) (plus_ranks ds).
Proof.
  apply Forall_forall. intros r Hr. unfold plus_ranks in Hr.
  apply list_elem_of_fmap in Hr as ([r' a] & -> & Hin).
  apply list_elem_of_filter in Hin as [_ Hin].
  apply elem_of_ranked in Hin as (i & _ & ->). simpl. lia.
Qed.

(** An observation at the centre has the least magnitude: the sorted array
    starts with its [0]. *)
Lemma sorted_absolute_diffs_zero ds :
  0 ∈ ds → sorted_absolute_diffs ds !! 0%nat = Some 0.
Proof.
  intros Hin.
  assert (0 ∈ absolute_diffs ds) as Habs.
  { rewrite absolute_diffs_fmap. apply list_elem_of_fmap. by exists 0. }
  unfold sorted_absolute_diffs.
  destruct (np_sort (absolute_diffs ds)) as [|x rest] eqn:Hs.
  - apply elem_of_np_sort in Habs. rewrite Hs in Habs.
    by apply elem_of_nil in Habs.
  - simpl. f_equal.
    pose proof (np_sort_head_le _ _ _ _ Hs Habs) as Hle.
    assert (x ∈ absolute_diffs ds) as Hx.
    { apply elem_of_np_sort. rewrite Hs. by left. }
    rewrite absolute_diffs_fmap in Hx.
    apply list_elem_of_fmap in Hx as (d & -> & _). lia.
Qed.

Lemma signs_zero ds : 0 ∈ ds → signs ds !! 0 = Some Plus.
Proof.
  intros Hin.
  assert (0 ∈ absolute_diffs ds) as Habs.
  { rewrite absolute_diffs_fmap. apply list_elem_of_fmap. by exists 0. }
  apply signs_is_Some in Habs as [s Hs]. rewrite Hs. f_equal.
  apply signs_sound in Hs as (d & _ & Hd & ->).
  assert (d = 0) as -> by lia. done.
Qed.

End Ranks.

(** ** Counters of the classification metrics *)

Section Counts.

Lemma precision_step_fold pairs tp fp :
  0 ≤ tp → 0 ≤ fp →
  tp ≤ (foldl precision_step (tp, fp) pairs).1 ∧
  fp ≤ (foldl precision_step (tp, fp) pairs).2 ∧
  ((foldl precision_step (tp, fp) pairs).1 + (foldl precision_step (tp, fp) pairs).2
     = tp + fp ↔ Forall (λ lp, lp.2 ≠ 1) pairs).
Proof.
  revert tp fp. induction pairs as [|[label prediction] pairs IH]; intros tp fp Htp Hfp.
  - simpl. split; [lia|]. split; [lia|]. split; [by constructor | done].
  - simpl. rewrite Forall_cons. simpl.
    destruct (decide (prediction = 1)) as [->|Hp].
    + destruct (decide (label = 1)).
      * destruct (IH (tp + 1) fp) as (H1 & H2 & H3); [lia..|].
        split; [lia|]. split; [lia|]. split; [lia | intros [? _]; done].
      * destruct (IH tp (fp + 1)) as (H1 & H2 & H3); [lia..|].
        split; [lia|]. split; [lia|]. split; [lia | intros [? _]; done].
    + destruct (IH tp fp) as (H1 & H2 & H3); [lia..|].
      split; [lia|]. split; [lia|]. rewrite H3. tauto.
Qed.

Lemma recall_step_fold pairs tp fn :
  0 ≤ tp → 0 ≤ fn →
  tp ≤ (foldl recall_step (tp, fn) pairs).1 ∧
  fn ≤ (foldl recall_step (tp, fn) pairs).2 ∧
  ((foldl recall_step (tp, fn) pairs).1 + (foldl recall_step (tp, fn) pairs).2
     = tp + fn ↔ Forall (λ lp, lp.1 ≠ 1) pairs).
Proof.
  revert tp fn. induction pairs as [|[label prediction] pairs IH]; intros tp fn Htp Hfn.
  - simpl. split; [lia|]. split; [lia|]. split; [by constructor | done].
  - simpl. rewrite Forall_cons. simpl.
    destruct (decide (label = 1)) as [->|Hl].
    + destruct (decide (prediction = 1)).
      * destruct (IH (tp + 1) fn) as (H1 & H2 & H3); [lia..|].
        split; [lia|]. split; [lia|]. split; [lia | intros [? _]; done].
      * destruct (IH tp (fn + 1)) as (H1 & H2 & H3); [lia..|].
        split; [lia|]. split; [lia|]. split; [lia | intros [? _]; done].
    + destruct (IH tp fn) as (H1 & H2 & H3); [lia..|].
      split; [lia|]. split; [lia|]. rewrite H3. tauto.
Qed.

Lemma true_div_outcome a b :
  (b = 0 ∧ true_div a b = Raise ZeroDivisionError) ∨
  (b ≠ 0 ∧ succeeds (true_div a b)).
Proof.
  unfold true_div. destruct (decide (b = 0)); [by left | right].
  split; [done | by eexists].
Qed.

(** [precision] raises exactly when no zipped prediction is positive, and
    then by a division by zero. *)
Lemma precision_raises labels predictions e :
  precision labels predictions = Raise e ↔
  e = ZeroDivisionError ∧ Forall (λ lp, lp.2 ≠ 1) (zip labels predictions).
Proof.
  unfold precision, precision_counts.
  destruct (precision_step_fold (zip labels predictions) 0 0) as (_ & _ & Hiff);
    [lia..|].
  destruct (foldl precision_step (0, 0) (zip labels predictions)) as [tp fp].
  simpl in Hiff. rewrite <-Hiff.
  destruct (true_div_outcome tp (tp + fp)) as [[Hz ->]|[Hnz [q ->]]].
  - split; [intros [= <-]; split; [done|lia] | by intros [-> _]].
  - split; [done | intros [_ ?]; lia].
Qed.

Lemma recall_raises labels predictions e :
  recall labels predictions = Raise e ↔
  e = ZeroDivisionError ∧ Forall (λ lp, lp.1 ≠ 1) (zip labels predictions).
Proof.
  unfold recall, recall_counts.
  destruct (recall_step_fold (zip labels predictions) 0 0) as (_ & _ & Hiff);
    [lia..|].
  destruct (foldl recall_step (0, 0) (zip labels predictions)) as [tp fn].
  simpl in Hiff. rewrite <-Hiff.
  destruct (true_div_outcome tp (tp + fn)) as [[Hz ->]|[Hnz [q ->]]].
  - split; [intros [= <-]; split; [done|lia] | by intros [-> _]].
  - split; [done | intros [_ ?]; lia].
Qed.

(** The counters at the division, when no zipped prediction (no zipped
    label) is positive. *)
Lemma precision_counts_zero labels predictions :
  Forall (λ lp, lp.2 ≠ 1) (zip labels predictions) →
  precision_counts labels predictions = (0, 0).
Proof.
  intros Hall. unfold precision_counts.
  destruct (precision_step_fold (zip labels predictions) 0 0) as (H1 & H2 & Hiff);
    [lia..|].
  apply Hiff in Hall.
  destruct (foldl precision_step (0, 0) (zip labels predictions)) as [tp fp].
  simpl in *. f_equal; lia.
Qed.

Lemma recall_counts_zero labels predictions :
  Forall (λ lp, lp.1 ≠ 1) (zip labels predictions) →
  recall_counts labels predictions = (0, 0).
Proof.
  intros Hall. unfold recall_counts.
  destruct (recall_step_fold (zip labels predictions) 0 0) as (H1 & H2 & Hiff);
    [lia..|].
  apply Hiff in Hall.
  destruct (foldl recall_step (0, 0) (zip labels predictions)) as [tp fn].
  simpl in *. f_equal; lia.
Qed.

Lemma f1_raises labels predictions e :
  f1 labels predictions = Raise e → e = ZeroDivisionError.
Proof.
  unfold f1.
  destruct (precision labels predictions) as [p|e'] eqn:Hp; simpl.
  - destruct (recall labels predictions) as [r|e''] eqn:Hr; simpl.
    + unfold float_div. destruct (Qeq_bool _ _); congruence.
    + intros [= <-]. by apply recall_raises in Hr as [-> _].
  - intros [= <-]. by apply precision_raises in Hp as [-> _].
Qed.

Lemma Forall_zip_snd (P : Z → Prop) (labels predictions : list Z) :
  Forall P predictions → Forall (λ lp, P lp.2) (zip labels predictions).
Proof.
  intros Hall. apply Forall_forall. intros [l p] Hin. simpl.
  apply elem_of_zip_r in Hin. by apply (proj1 (Forall_forall _ _) Hall).
Qed.

Lemma Forall_zip_fst (P : Z → Prop) (labels predictions : list Z) :
  Forall P labels → Forall (λ lp, P lp.1) (zip labels predictions).
Proof.
  intros Hall. apply Forall_forall. intros [l p] Hin. simpl.
  apply elem_of_zip_l in Hin. by apply (proj1 (Forall_forall _ _) Hall).
Qed.

End Counts.

(** * The specification, claim by claim *)

(** C1. On the sample of the notebook (17 observations, hypothesised centre
    30) the cell computes s+ = 76.  The sorted absolute differences and the
    signs in rank order are the columns the notebook prints; the ranks
    handed out are 1..17 and those of the positive differences are 1, 2, 3,
    9, 13, 15, 16 and 17. *)
Theorem s_plus_offset_data :
  length offset_data = 17%nat ∧ median0 = 30 * micro ∧
  sorted_absolute_diffs (diffs offset_data median0) =
    [232974; 970240; 1696030; 1737354; 4707712; 8644866; 9054106; 9146244;
     10574152; 15962573; 17649881; 20071233; 20994944; 24215534; 24300015;
     27925694; 35960599] ∧
  ordered_signs (diffs offset_data median0) =
    Some <$> [Plus; Plus; Plus; Minus; Minus; Minus; Minus; Minus; Plus;
              Minus; Minus; Minus; Plus; Minus; Plus; Plus; Plus] ∧
  fst <$> ranked (sorted_absolute_diffs (diffs offset_data median0)) = seqZ 1 17 ∧
  plus_ranks (diffs offset_data median0) = [1; 2; 3; 9; 13; 15; 16; 17] ∧
  s_plus offset_data median0 = Return 76.
Proof. repeat split; vm_compute; reflexivity. Qed.

(** C2. Ties are not given their mean rank.  On the sample 31, 32, 33, 34,
    26 with centre 30 the magnitudes are 1, 2, 3, 4, 4: the two tied
    observations stand at ranks 4 and 5, the dictionary keeps one sign for
    both (the last one stored, ['-']), and s+ is 1 + 2 + 3 = 6, where mean
    ranks give 1 + 2 + 3 + 4.5. *)
Theorem tied_magnitudes_keep_integer_ranks :
  diffs [31; 32; 33; 34; 26] 30 = [1; 2; 3; 4; -4] ∧
  ranked (sorted_absolute_diffs (diffs [31; 32; 33; 34; 26] 30))
    = [(1, 1); (2, 2); (3, 3); (4, 4); (5, 4)] ∧
  ordered_signs (diffs [31; 32; 33; 34; 26] 30)
    = [Some Plus; Some Plus; Some Plus; Some Minus; Some Minus] ∧
  s_plus [31; 32; 33; 34; 26] 30 = Return 6.
Proof. repeat split; vm_compute; reflexivity. Qed.

(** C6. If every observation lies above the centre, s+ = N(N+1)/2; if every
    observation lies below it, s+ = 0.  In both cases N, the number of
    nonzero differences, is the sample size. *)
Theorem s_plus_one_sided data median :
  (Forall (λ x, median < x) data →
     nonzero_count data median = length data ∧
     s_plus data median = Return (rank_total (nonzero_count data median))) ∧
  (Forall (λ x, x < median) data →
     nonzero_count data median = length data ∧
     s_plus data median = Return 0).
Proof.
  split; intros Hall.
  - assert (nonzero_count data median = length data) as Hn.
    { apply nonzero_count_all. eapply Forall_impl; [done|]. simpl. lia. }
    split; [done|]. rewrite Hn. apply s_plus_all_plus, Forall_diffs.
    eapply Forall_impl; [done|]. intros x Hx. unfold sign_of. simpl in *.
    destruct (Z.ltb_spec (x - median) 0); [lia|done].
  - split.
    { apply nonzero_count_all. eapply Forall_impl; [done|]. simpl. lia. }
    apply s_plus_all_minus, Forall_diffs.
    eapply Forall_impl; [done|]. intros x Hx. unfold sign_of. simpl in *.
    destruct (Z.ltb_spec (x - median) 0); [done|lia].
Qed.

Lemma s_plus_one_sided_witness :
  (Forall (λ x, 30 < x) [31; 35; 32] ∧
   s_plus [31; 35; 32] 30 = Return (rank_total (nonzero_count [31; 35; 32] 30))) ∧
  (Forall (λ x, x < 30) [29; 25; 28] ∧ s_plus [29; 25; 28] 30 = Return 0).
Proof.
  assert (Forall (λ x, 30 < x) [31; 35; 32]) as Hup by (repeat constructor).
  assert (Forall (λ x, x < 30) [29; 25; 28]) as Hdown by (repeat constructor).
  split.
  - split; [exact Hup|].
    exact (proj2 (proj1 (s_plus_one_sided [31; 35; 32] 30) Hup)).
  - split; [exact Hdown|].
    exact (proj2 (proj2 (s_plus_one_sided [29; 25; 28] 30) Hdown)).
Defined.

(** C9, amended.  Division by zero is how [precision], [recall] and [f1]
    fail, and the only way.  When no prediction is positive, [precision]
    reaches its division with tp = fp = 0 and raises [ZeroDivisionError]; so
    does [recall], with tp = fn = 0, when no label is positive.  Neither
    raises anything else nor in any other case, and [f1] raises nothing but
    [ZeroDivisionError]. *)
Theorem metrics_divide_by_zero labels predictions :
  (Forall (λ p, p ≠ 1) predictions →
     precision_counts labels predictions = (0, 0) ∧
     precision labels predictions = Raise ZeroDivisionError) ∧
  (Forall (λ l, l ≠ 1) labels →
     recall_counts labels predictions = (0, 0) ∧
     recall labels predictions = Raise ZeroDivisionError) ∧
  (∀ e, precision labels predictions = Raise e →
     e = ZeroDivisionError ∧ Forall (λ lp, lp.2 ≠ 1) (zip labels predictions)) ∧
  (∀ e, recall labels predictions = Raise e →
     e = ZeroDivisionError ∧ Forall (λ lp, lp.1 ≠ 1) (zip labels predictions)) ∧
  (∀ e, f1 labels predictions = Raise e → e = ZeroDivisionError).
Proof.
  split; [|split; [|split; [|split]]].
  - intros Hall%(Forall_zip_snd (λ p, p ≠ 1) labels).
    split; [by apply precision_counts_zero | by apply precision_raises].
  - intros Hall%(Forall_zip_fst (λ l, l ≠ 1) labels predictions).
    split; [by apply recall_counts_zero | by apply recall_raises].
  - intros e. apply precision_raises.
  - intros e. apply recall_raises.
  - intros e. apply f1_raises.
Qed.

Lemma metrics_divide_by_zero_witness :
  (Forall (λ p, p ≠ 1) [0; 0; 0] ∧
   precision [1; 0; 1] [0; 0; 0] = Raise ZeroDivisionError) ∧
  (Forall (λ l, l ≠ 1) [0; 0; 0] ∧
   recall [0; 0; 0] [1; 0; 1] = Raise ZeroDivisionError).
Proof.
  assert (Forall (λ p, p ≠ 1) [0; 0; 0]) as H
    by (repeat constructor; discriminate).
  split; (split; [exact H|]).
  - exact (proj2 (proj1 (metrics_divide_by_zero [1; 0; 1] [0; 0; 0]) H)).
  - exact (proj2 (proj1 (proj2 (metrics_divide_by_zero [0; 0; 0] [1; 0; 1])) H)).
Defined.

(** C10. An observation equal to the centre is kept in the ranked set: its
    magnitude 0 is stored with the sign ['+'], it stands first in the sorted
    array, and the rank of every position that holds a 0 is one of the ranks
    added up in s+, which is therefore at least 1. *)
Theorem centre_observation_counts_as_plus data median :
  median ∈ data →
  signs (diffs data median) !! 0 = Some Plus ∧
  length (sorted_absolute_diffs (diffs data median)) = length data ∧
  sorted_absolute_diffs (diffs data median) !! 0%nat = Some 0 ∧
  (∀ idx, sorted_absolute_diffs (diffs data median) !! idx = Some 0 →
          Z.of_nat idx + 1 ∈ plus_ranks (diffs data median)) ∧
  s_plus data median = Return (sum_ranks (plus_ranks (diffs data median))) ∧
  1 ≤ sum_ranks (plus_ranks (diffs data median)).
Proof.
  intros Hin.
  assert (0 ∈ diffs data median) as Hz.
  { unfold diffs. apply list_elem_of_fmap. exists median. split; [lia|done]. }
  pose proof (signs_zero _ Hz) as Hs.
  pose proof (sorted_absolute_diffs_zero _ Hz) as H0.
  split; [done|].
  split; [by rewrite length_sorted_absolute_diffs, length_diffs|].
  split; [done|].
  split; [intros idx Hidx; by eapply plus_ranks_lookup|].
  split; [apply s_plus_sum|].
  apply (sum_ranks_elem_of _ 1); [apply plus_ranks_pos|].
  by apply (plus_ranks_lookup _ 0%nat 0).
Qed.

Lemma centre_observation_counts_as_plus_witness :
  30 ∈ [31; 30; 28] ∧
  signs (diffs [31; 30; 28] 30) !! 0 = Some Plus ∧
  s_plus [31; 30; 28] 30 = Return (sum_ranks (plus_ranks (diffs [31; 30; 28] 30))).
Proof.
  assert (30 ∈ [31; 30; 28]) as H by (right; left).
  split; [exact H|].
  destruct (centre_observation_counts_as_plus [31; 30; 28] 30 H)
    as (H1 & _ & _ & _ & H2 & _).
  exact (conj H1 H2).
Defined.

(** * Further properties of the signed-rank cell *)

Section Dictionary.

(** The sign kept for a magnitude is the one stored last. *)
Lemma signs_last l1 d l2 :
  Forall (λ d', Z.abs d' ≠ Z.abs d) l2 →
  signs (l1 ++ d :: l2) !! Z.abs d = Some (sign_of d).
Proof.
  induction l2 as [|x l2 IH] using rev_ind; intros Hl2.
  - by rewrite signs_snoc, lookup_insert_eq.
  - apply Forall_app in Hl2 as [Hl2 Hx%Forall_inv]. simpl in Hx.
    replace (l1 ++ d :: l2 ++ [x]) with ((l1 ++ d :: l2) ++ [x])
      by (by rewrite <-app_assoc).
    rewrite signs_snoc, lookup_insert_ne by done. by apply IH.
Qed.

(** Without ties every observation finds its own sign. *)
Lemma signs_own ds d :
  NoDup (absolute_diffs ds) → d ∈ ds → signs ds !! Z.abs d = Some (sign_of d).
Proof.
  intros Hnd (l1 & l2 & ->)%list_elem_of_split.
  apply signs_last. rewrite absolute_diffs_fmap, fmap_app, fmap_cons in Hnd.
  apply NoDup_app in Hnd as (_ & _ & Hnd). apply NoDup_cons in Hnd as [Hd _].
  apply Forall_forall. intros d' Hd' Heq. apply Hd. rewrite <-Heq.
  apply list_elem_of_fmap. eauto.
Qed.

Lemma signs_None ds a : a ∉ absolute_diffs ds → signs ds !! a = None.
Proof.
  intros Ha. destruct (signs ds !! a) as [s|] eqn:Hs; [|done].
  apply signs_sound in Hs as (d & Hd & <- & _). destruct Ha.
  rewrite absolute_diffs_fmap. apply list_elem_of_fmap. eauto.
Qed.

Lemma dom_signs ds : dom (signs ds) = list_to_set (absolute_diffs ds).
Proof.
  induction ds as [|d ds IH] using rev_ind.
  - by rewrite signs_nil, dom_empty_L.
  - rewrite signs_snoc, absolute_diffs_snoc, dom_insert_L, IH.
    rewrite list_to_set_snoc_L. apply (comm_L (∪)).
Qed.

Lemma size_list_to_set_le (l : list Z) :
  (size (list_to_set l : gset Z) ≤ length l)%nat ∧
  (size (list_to_set l : gset Z) = length l → NoDup l).
Proof.
  induction l as [|x l [IHle IHnd]]; [split; [done | constructor]|].
  rewrite list_to_set_cons. simpl length.
  destruct (decide (x ∈ l)) as [Hin|Hnin].
  - rewrite subseteq_union_1_L by set_solver. split; lia.
  - rewrite size_union, size_singleton by set_solver.
    split; [lia|]. intros Heq. apply NoDup_cons. split; [done|].
    apply IHnd. lia.
Qed.

End Dictionary.

(** X2. The second loop on an arbitrary dictionary raises exactly when some
    element of the array is not a key, and then what it raises is
    [KeyError]; the accumulator and the starting position do not matter. *)
Theorem rank_sum_raises which sgn idx l acc e :
  rank_sum which sgn idx l acc = Raise e ↔
  e = KeyError ∧ ∃ a, a ∈ l ∧ sgn !! a = None.
Proof.
  revert idx acc. induction l as [|a l IH]; intros idx acc; simpl.
  - split; [done|]. by intros [_ (a & ?%elem_of_nil & _)].
  - destruct (sgn !! a) as [s|] eqn:Hs.
    + rewrite IH. split.
      * intros [-> (b & Hb & Hnone)]. split; [done|]. exists b.
        split; [by right | done].
      * intros [-> (b & Hb & Hnone)]. split; [done|]. exists b.
        apply elem_of_cons in Hb as [->|Hb]; [congruence | done].
    + split.
      * intros [= <-]. split; [done|]. exists a. split; [by left | done].
      * by intros [-> _].
Qed.

Lemma rank_sum_raises_witness :
  rank_sum Plus {[1 := Plus]} 0 [1; 2] 0 = Raise KeyError.
Proof.
  apply (proj2 (rank_sum_raises Plus {[1 := Plus]} 0 [1; 2] 0 KeyError)).
  split; [reflexivity|]. exists 2. split; [by right; left | reflexivity].
Defined.

(** X3. The dictionary keeps, for each magnitude, the sign of the last
    difference that has it: a difference after which no difference of the
    same magnitude follows decides the stored sign, whatever came before. *)
Theorem signs_last_write_wins before d after :
  Forall (λ d', Z.abs d' ≠ Z.abs d) after →
  signs (before ++ d :: after) !! Z.abs d = Some (sign_of d).
Proof. apply signs_last. Qed.

Lemma signs_last_write_wins_witness :
  signs ([4; 1] ++ (-4) :: [2]) !! Z.abs (-4) = Some (sign_of (-4)).
Proof.
  apply (signs_last_write_wins [4; 1] (-4) [2]).
  repeat constructor. discriminate.
Defined.

(** X4. The keys of the dictionary are exactly the magnitudes met.  It has
    at most one entry per observation, and exactly one per observation
    precisely when no two magnitudes tie. *)
Theorem signs_keys ds :
  dom (signs ds) = list_to_set (absolute_diffs ds) ∧
  (size (signs ds) ≤ length ds)%nat ∧
  (size (signs ds) = length ds ↔ NoDup (absolute_diffs ds)).
Proof.
  split; [apply dom_signs|].
  rewrite <-(size_dom (D:=gset Z)), dom_signs, <-(length_absolute_diffs ds).
  destruct (size_list_to_set_le (absolute_diffs ds)) as [Hle Hnd].
  split; [done|]. split; [done|]. apply size_list_to_set.
Qed.

Section Invariance.

(** The sorted array depends on the contents of the array only. *)
Lemma np_sort_Permutation_eq l l' : l ≡ₚ l' → np_sort l = np_sort l'.
Proof.
  intros Hp. apply (StronglySorted_unique Z.le); [apply np_sort_sorted..|].
  by rewrite !np_sort_Permutation.
Qed.

Lemma sum_ranks_Permutation l l' : l ≡ₚ l' → sum_ranks l = sum_ranks l'.
Proof.
  unfold sum_ranks.
  induction 1 as [|x l l' _ IH|x y l|l l' l'' _ IH1 _ IH2]; simpl; lia.
Qed.

Lemma filter_fmap_comm {A B} (f : A → B) (P : B → Prop)
    `{∀ y, Decision (P y)} (l : list A) :
  filter P (f <$> l) = f <$> filter (λ x, P (f x)) l.
Proof.
  induction l as [|x l IH]; [done|].
  rewrite fmap_cons, !filter_cons, IH. by destruct (decide (P (f x))).
Qed.

Lemma filter_ext_elem_of {A} (P1 P2 : A → Prop) `{∀ x, Decision (P1 x)}
    `{∀ x, Decision (P2 x)} (l : list A) :
  (∀ x, x ∈ l → P1 x ↔ P2 x) → filter P1 l = filter P2 l.
Proof.
  induction l as [|x l IH]; intros Hext; [done|].
  rewrite !filter_cons, IH by (intros y Hy; apply Hext; by right).
  pose proof (Hext x (list_elem_of_here _ _)) as Hx.
  destruct (decide (P1 x)), (decide (P2 x)); (done || tauto).
Qed.

(** Without ties, the pairs of the second loop are the sorted magnitudes
    with their own ranks. *)
Lemma ranked_own_rank l :
  NoDup l → ranked l = (λ a, (default 0 (rank_of l a), a)) <$> l.
Proof.
  intros Hnd. apply list_eq. intros i. unfold ranked.
  rewrite list_lookup_imap, list_lookup_fmap.
  destruct (l !! i) as [a|] eqn:Hi; [|done]. simpl.
  by rewrite (rank_of_lookup l i a).
Qed.

Lemma sign_of_Plus d : sign_of d = Plus ↔ 0 ≤ d.
Proof. unfold sign_of. destruct (Z.ltb_spec d 0); split; (done || lia). Qed.

Lemma plus_ranks_nonneg_ranks ds :
  NoDup (absolute_diffs ds) → plus_ranks ds ≡ₚ nonneg_ranks ds.
Proof.
  intros Hnd.
  assert (NoDup (sorted_absolute_diffs ds)) as Hnds.
  { unfold sorted_absolute_diffs. by rewrite np_sort_Permutation. }
  unfold plus_ranks, nonneg_ranks, own_rank.
  rewrite (ranked_own_rank _ Hnds), filter_fmap_comm, <-list_fmap_compose.
  simpl.
  unfold sorted_absolute_diffs at 2.
  rewrite (np_sort_Permutation (absolute_diffs ds)).
  rewrite absolute_diffs_fmap, filter_fmap_comm, <-list_fmap_compose.
  rewrite (filter_ext_elem_of (λ d, signs ds !! Z.abs d = Some Plus) (λ d, 0 ≤ d)).
  - done.
  - intros d Hd. rewrite (signs_own ds d Hnd Hd), <-sign_of_Plus.
    split; congruence.
Qed.

Lemma signs_Permutation ds ds' :
  NoDup (absolute_diffs ds) → ds ≡ₚ ds' → signs ds' = signs ds.
Proof.
  intros Hnd Hp.
  assert (NoDup (absolute_diffs ds')) as Hnd'.
  { rewrite absolute_diffs_fmap, <-Hp, <-absolute_diffs_fmap. done. }
  apply map_eq. intros a.
  destruct (signs ds !! a) as [s|] eqn:Hs.
  - apply signs_sound in Hs as (d & Hd & <- & ->).
    apply signs_own; [done|]. by rewrite <-Hp.
  - apply signs_None. intros Ha.
    rewrite absolute_diffs_fmap, <-Hp, <-absolute_diffs_fmap in Ha.
    apply signs_is_Some in Ha as [s' Hs']. congruence.
Qed.

End Invariance.



(** X6. Without ties the order of the sample does not matter: any
    rearrangement of the observations gives the same dictionary, the same
    sorted array and the same s+. *)
Theorem s_plus_order_independent data data' median :
  NoDup (absolute_diffs (diffs data median)) →
  data ≡ₚ data' →
  signs (diffs data' median) = signs (diffs data median) ∧
  sorted_absolute_diffs (diffs data' median) = sorted_absolute_diffs (diffs data median) ∧
  s_plus data' median = s_plus data median.
Proof.
  intros Hnd Hp.
  assert (diffs data median ≡ₚ diffs data' median) as Hpd.
  { unfold diffs. by rewrite Hp. }
  assert (signs (diffs data' median) = signs (diffs data median)) as Hs
    by by apply signs_Permutation.
  assert (sorted_absolute_diffs (diffs data' median)
          = sorted_absolute_diffs (diffs data median)) as Hsorted.
  { unfold sorted_absolute_diffs. apply np_sort_Permutation_eq.
    by rewrite !absolute_diffs_fmap, Hpd. }
  split; [done|]. split; [done|].
  unfold s_plus. simpl. by rewrite Hs, Hsorted.
Qed.

Lemma s_plus_order_independent_witness :
  NoDup (absolute_diffs (diffs [31; 27; 32] 30)) ∧ [31; 27; 32] ≡ₚ [32; 31; 27] ∧
  s_plus [32; 31; 27] 30 = s_plus [31; 27; 32] 30.
Proof.
  assert (NoDup (absolute_diffs (diffs [31; 27; 32] 30))) as H
    by (apply (@bool_decide_unpack _ (NoDup_dec _)); vm_compute; exact I).
  assert ([31; 27; 32] ≡ₚ [32; 31; 27]) as Hp.
  { apply (Permutation_cons_app [32] [27] 31), (Permutation_cons_app [32] [] 27).
    reflexivity. }
  split; [exact H|]. split; [exact Hp|].
  exact (proj2 (proj2 (s_plus_order_independent [31; 27; 32] [32; 31; 27] 30 H Hp))).
Defined.

(** * Further properties of the classification metrics *)

Section Confusion.

Lemma precision_step_confusion pairs tp fp :
  foldl precision_step (tp, fp) pairs
  = (tp + true_positives pairs, fp + false_positives pairs).
Proof.
  unfold true_positives, false_positives.
  revert tp fp. induction pairs as [|[label prediction] pairs IH]; intros tp fp.
  - simpl. f_equal; lia.
  - simpl foldl. rewrite !filter_cons. simpl.
    destruct (decide (prediction = 1)) as [->|Hp];
      [destruct (decide (label = 1)) as [->|Hl]|]; rewrite IH;
      repeat case_decide; try tauto; simpl length; f_equal; lia.
Qed.

Lemma recall_step_confusion pairs tp fn :
  foldl recall_step (tp, fn) pairs
  = (tp + true_positives pairs, fn + false_negatives pairs).
Proof.
  unfold true_positives, false_negatives.
  revert tp fn. induction pairs as [|[label prediction] pairs IH]; intros tp fn.
  - simpl. f_equal; lia.
  - simpl foldl. rewrite !filter_cons. simpl.
    destruct (decide (label = 1)) as [->|Hl];
      [destruct (decide (prediction = 1)) as [->|Hp]|]; rewrite IH;
      repeat case_decide; try tauto; simpl length; f_equal; lia.
Qed.

Lemma true_positives_nonneg pairs : 0 ≤ true_positives pairs.
Proof. unfold true_positives. lia. Qed.

Lemma false_positives_nonneg pairs : 0 ≤ false_positives pairs.
Proof. unfold false_positives. lia. Qed.

Lemma false_negatives_nonneg pairs : 0 ≤ false_negatives pairs.
Proof. unfold false_negatives. lia. Qed.

(** The loops of [recall] and [precision] are one loop with the roles of its
    two arguments exchanged. *)
Lemma recall_step_swap c labels predictions :
  foldl recall_step c (zip labels predictions)
  = foldl precision_step c (zip predictions labels).
Proof.
  revert c predictions.
  induction labels as [|l labels IH]; intros c [|p predictions]; try done.
  simpl. rewrite <-IH.
  assert (recall_step c (l, p) = precision_step c (p, l)) as ->; [|done].
  destruct c as [tp fn]. unfold recall_step, precision_step.
  by repeat case_decide.
Qed.

Lemma zip_app_longer_l {A B} (l e : list A) (k : list B) :
  length l = length k → zip (l ++ e) k = zip l k.
Proof.
  revert k. induction l as [|x l IH]; intros [|y k] Hlen; try done.
  - by destruct e.
  - simpl. f_equal. apply IH. by injection Hlen.
Qed.

Lemma zip_app_longer_r {A B} (l : list A) (k e : list B) :
  length l = length k → zip l (k ++ e) = zip l k.
Proof.
  revert k. induction l as [|x l IH]; intros [|y k] Hlen; try done.
  simpl. f_equal. apply IH. by injection Hlen.
Qed.

Lemma positive_class_step (step : Z * Z → Z * Z → Z * Z) c labels predictions :
  (∀ c l p, step c (positive_class l, positive_class p) = step c (l, p)) →
  foldl step c (zip (positive_class <$> labels) (positive_class <$> predictions))
  = foldl step c (zip labels predictions).
Proof.
  intros Hstep. revert c predictions.
  induction labels as [|l labels IH]; intros c [|p predictions]; try done.
  simpl. by rewrite Hstep, IH.
Qed.

Lemma precision_step_positive_class c l p :
  precision_step c (positive_class l, positive_class p) = precision_step c (l, p).
Proof.
  destruct c as [tp fp]. unfold precision_step, positive_class.
  by repeat case_decide.
Qed.

Lemma recall_step_positive_class c l p :
  recall_step c (positive_class l, positive_class p) = recall_step c (l, p).
Proof.
  destruct c as [tp fn]. unfold recall_step, positive_class.
  by repeat case_decide.
Qed.

End Confusion.

(** X8. The counters of the two loops are cells of the confusion matrix of
    the zipped pairs: [precision] divides the true positives by the true
    plus the false positives, [recall] divides the same true positives by
    the true positives plus the false negatives. *)
Theorem counters_are_confusion_cells labels predictions :
  precision_counts labels predictions
    = (true_positives (zip labels predictions),
       false_positives (zip labels predictions)) ∧
  recall_counts labels predictions
    = (true_positives (zip labels predictions),
       false_negatives (zip labels predictions)) ∧
  precision labels predictions
    = true_div (true_positives (zip labels predictions))
        (true_positives (zip labels predictions)
         + false_positives (zip labels predictions)) ∧
  recall labels predictions
    = true_div (true_positives (zip labels predictions))
        (true_positives (zip labels predictions)
         + false_negatives (zip labels predictions)).
Proof.
  unfold precision, recall, precision_counts, recall_counts.
  by rewrite precision_step_confusion, recall_step_confusion, !Z.add_0_l.
Qed.

(** X9. [recall] is [precision] with its two arguments exchanged. *)
Theorem recall_is_swapped_precision labels predictions :
  recall labels predictions = precision predictions labels.
Proof.
  unfold recall, precision, recall_counts, precision_counts.
  by rewrite recall_step_swap.
Qed.

(** X10. The lengths are not checked: the loops stop at the end of the
    shorter sequence, so entries beyond the common length change none of
    the three metrics. *)
Theorem metrics_ignore_excess labels predictions extra :
  length labels = length predictions →
  precision (labels ++ extra) predictions = precision labels predictions ∧
  precision labels (predictions ++ extra) = precision labels predictions ∧
  recall (labels ++ extra) predictions = recall labels predictions ∧
  recall labels (predictions ++ extra) = recall labels predictions ∧
  f1 (labels ++ extra) predictions = f1 labels predictions ∧
  f1 labels (predictions ++ extra) = f1 labels predictions.
Proof.
  intros Hlen.
  unfold f1, precision, recall, precision_counts, recall_counts.
  by rewrite zip_app_longer_l, zip_app_longer_r.
Qed.

Lemma metrics_ignore_excess_witness :
  length [1; 0; 1] = length [1; 1; 0] ∧
  precision ([1; 0; 1] ++ [1; 1]) [1; 1; 0] = precision [1; 0; 1] [1; 1; 0].
Proof.
  assert (length [1; 0; 1] = length [1; 1; 0]) as H by reflexivity.
  split; [exact H|].
  exact (proj1 (metrics_ignore_excess [1; 0; 1] [1; 1; 0] [1; 1] H)).
Defined.

(** X11. Only the value 1 is the positive class: every other label or
    prediction (0, 2, -1, ...) counts as negative, so replacing each entry
    by 1 or 0 accordingly changes none of the three metrics. *)
Theorem metrics_see_one_against_rest labels predictions :
  precision (positive_class <$> labels) (positive_class <$> predictions)
    = precision labels predictions ∧
  recall (positive_class <$> labels) (positive_class <$> predictions)
    = recall labels predictions ∧
  f1 (positive_class <$> labels) (positive_class <$> predictions)
    = f1 labels predictions.
Proof.
  unfold f1, precision, recall, precision_counts, recall_counts.
  rewrite (positive_class_step precision_step)
    by apply precision_step_positive_class.
  rewrite (positive_class_step recall_step)
    by apply recall_step_positive_class.
  done.
Qed.

Section Ratios.

Local Open Scope Q_scope.

(** The quotient of two integers, the divisor positive. *)
Lemma ratio_Qmake a b : (0 < b)%Z → inject_Z a / inject_Z b == a # Z.to_pos b.
Proof.
  intros Hb. destruct b as [|b|b]; try lia.
  unfold Qdiv, Qinv, Qmult, Qeq, inject_Z. simpl. lia.
Qed.

Lemma ratio_range a b :
  (0 ≤ a)%Z → (a ≤ b)%Z → (0 < b)%Z →
  0 <= inject_Z a / inject_Z b ∧ inject_Z a / inject_Z b <= 1 ∧
  (inject_Z a / inject_Z b == 1 ↔ a = b) ∧
  (inject_Z a / inject_Z b == 0 ↔ a = 0%Z).
Proof.
  intros Ha Hab Hb. rewrite !ratio_Qmake by done.
  unfold Qle, Qeq. simpl. rewrite !Z2Pos.id by done.
  repeat split; lia.
Qed.

Lemma ratio_pos a b : (0 < a)%Z → (0 < b)%Z → 0 < inject_Z a / inject_Z b.
Proof.
  intros Ha Hb. rewrite ratio_Qmake by done. unfold Qlt. simpl. lia.
Qed.

Lemma true_div_Return a b q :
  true_div a b = Return q → b ≠ 0%Z ∧ q = inject_Z a / inject_Z b.
Proof.
  unfold true_div. destruct (decide (b = 0%Z)); [done|].
  intros [= <-]. done.
Qed.

Lemma true_div_nonzero a b :
  b ≠ 0%Z → true_div a b = Return (inject_Z a / inject_Z b).
Proof. intros Hb. unfold true_div. by rewrite decide_False. Qed.

Lemma precision_true_div labels predictions :
  precision labels predictions
  = true_div (true_positives (zip labels predictions))
      (true_positives (zip labels predictions)
       + false_positives (zip labels predictions)).
Proof.
  unfold precision, precision_counts.
  by rewrite precision_step_confusion, !Z.add_0_l.
Qed.

Lemma recall_true_div labels predictions :
  recall labels predictions
  = true_div (true_positives (zip labels predictions))
      (true_positives (zip labels predictions)
       + false_negatives (zip labels predictions)).
Proof.
  unfold recall, recall_counts.
  by rewrite recall_step_confusion, !Z.add_0_l.
Qed.

Lemma float_div_nonzero a b : ¬ b == 0 → float_div a b = Return (a / b).
Proof.
  intros Hb. unfold float_div.
  destruct (Qeq_bool b 0) eqn:E; [|done]. by apply Qeq_bool_iff in E.
Qed.

Lemma float_div_zero a b : b == 0 → float_div a b = Raise ZeroDivisionError.
Proof.
  intros Hb. unfold float_div. apply Qeq_bool_iff in Hb. by rewrite Hb.
Qed.

(** The harmonic mean of tp/(tp+fp) and tp/(tp+fn). *)
Lemma harmonic_mean tp fp fn :
  (0 < tp)%Z → (0 ≤ fp)%Z → (0 ≤ fn)%Z →
  2 * (inject_Z tp / inject_Z (tp + fp) * (inject_Z tp / inject_Z (tp + fn)))
    / (inject_Z tp / inject_Z (tp + fp) + inject_Z tp / inject_Z (tp + fn))
  == inject_Z (2 * tp) / inject_Z (2 * tp + fp + fn).
Proof.
  intros Htp Hfp Hfn.
  rewrite !inject_Z_plus, !inject_Z_mult.
  assert (0 < inject_Z tp) as HP by (unfold Qlt; simpl; lia).
  assert (0 <= inject_Z fp) as HF by (unfold Qle; simpl; lia).
  assert (0 <= inject_Z fn) as HG by (unfold Qle; simpl; lia).
  change (inject_Z 2) with 2.
  field. repeat split; try lra.
  assert (0 < inject_Z tp * (inject_Z tp + inject_Z fn)) by nra.
  assert (0 <= inject_Z tp * (inject_Z tp + inject_Z fp)) by nra.
  lra.
Qed.

End Ratios.

Section F1.

Local Open Scope Q_scope.

Lemma f1_with_true_positive labels predictions :
  (0 < true_positives (zip labels predictions))%Z →
  f1 labels predictions
  = Return (2 * (inject_Z (true_positives (zip labels predictions))
                 / inject_Z (true_positives (zip labels predictions)
                             + false_positives (zip labels predictions))
                 * (inject_Z (true_positives (zip labels predictions))
                    / inject_Z (true_positives (zip labels predictions)
                                + false_negatives (zip labels predictions))))
            / (inject_Z (true_positives (zip labels predictions))
               / inject_Z (true_positives (zip labels predictions)
                           + false_positives (zip labels predictions))
               + inject_Z (true_positives (zip labels predictions))
                 / inject_Z (true_positives (zip labels predictions)
                             + false_negatives (zip labels predictions)))).
Proof.
  intros Htp.
  pose proof (false_positives_nonneg (zip labels predictions)) as Hfp.
  pose proof (false_negatives_nonneg (zip labels predictions)) as Hfn.
  unfold f1. rewrite precision_true_div, recall_true_div.
  rewrite !true_div_nonzero by lia. simpl.
  apply float_div_nonzero.
  pose proof (ratio_pos _ (true_positives (zip labels predictions)
                           + false_positives (zip labels predictions)) Htp) as Hp.
  pose proof (ratio_pos _ (true_positives (zip labels predictions)
                           + false_negatives (zip labels predictions)) Htp) as Hr.
  specialize (Hp ltac:(lia)). specialize (Hr ltac:(lia)). lra.
Qed.

Lemma f1_without_true_positive labels predictions :
  true_positives (zip labels predictions) = 0%Z →
  f1 labels predictions = Raise ZeroDivisionError.
Proof.
  intros Htp. unfold f1. rewrite precision_true_div, recall_true_div, Htp.
  unfold true_div.
  destruct (decide (0 + false_positives (zip labels predictions) = 0)%Z); [done|].
  destruct (decide (0 + false_negatives (zip labels predictions) = 0)%Z); [done|].
  simpl. apply float_div_zero.
  change (inject_Z 0) with 0. unfold Qdiv. rewrite !Qmult_0_l. reflexivity.
Qed.

Lemma confusion_of_equal l :
  false_positives (zip l l) = 0%Z ∧ false_negatives (zip l l) = 0%Z ∧
  (1%Z ∈ l → (0 < true_positives (zip l l))%Z).
Proof.
  unfold false_positives, false_negatives, true_positives.
  induction l as [|x l (IH1 & IH2 & IH3)].
  - split; [done|]. split; [done|]. by intros ?%elem_of_nil.
  - simpl zip. rewrite !filter_cons. simpl.
    destruct (decide (x = 1%Z)) as [Hx|Hx].
    + rewrite decide_False, decide_False, decide_True by tauto.
      simpl length. split; [lia|]. split; [lia|]. lia.
    + rewrite !decide_False by tauto.
      split; [lia|]. split; [lia|].
      intros [Heq|Hin]%elem_of_cons; [congruence | by apply IH3].
Qed.

End F1.

(** X12. What [precision] and [recall] return lies between 0 and 1; it is 1
    exactly when there is no false positive (for [recall]: no false
    negative) and 0 exactly when there is no true positive. *)
Theorem precision_recall_range labels predictions :
  (∀ q, precision labels predictions = Return q →
     (0 <= q)%Q ∧ (q <= 1)%Q ∧
     ((q == 1)%Q ↔ false_positives (zip labels predictions) = 0) ∧
     ((q == 0)%Q ↔ true_positives (zip labels predictions) = 0)) ∧
  (∀ q, recall labels predictions = Return q →
     (0 <= q)%Q ∧ (q <= 1)%Q ∧
     ((q == 1)%Q ↔ false_negatives (zip labels predictions) = 0) ∧
     ((q == 0)%Q ↔ true_positives (zip labels predictions) = 0)).
Proof.
  pose proof (true_positives_nonneg (zip labels predictions)) as Htp.
  pose proof (false_positives_nonneg (zip labels predictions)) as Hfp.
  pose proof (false_negatives_nonneg (zip labels predictions)) as Hfn.
  split; intros q Hq.
  - rewrite precision_true_div in Hq. apply true_div_Return in Hq as [Hnz ->].
    destruct (ratio_range (true_positives (zip labels predictions))
                (true_positives (zip labels predictions)
                 + false_positives (zip labels predictions)))
      as (H1 & H2 & H3 & H4); [lia..|].
    split; [done|]. split; [done|]. split; [rewrite H3; lia | done].
  - rewrite recall_true_div in Hq. apply true_div_Return in Hq as [Hnz ->].
    destruct (ratio_range (true_positives (zip labels predictions))
                (true_positives (zip labels predictions)
                 + false_negatives (zip labels predictions)))
      as (H1 & H2 & H3 & H4); [lia..|].
    split; [done|]. split; [done|]. split; [rewrite H3; lia | done].
Qed.

Lemma precision_recall_range_witness :
  precision [1; 0; 1] [1; 1; 1] = Return (inject_Z 2 / inject_Z 3)%Q ∧
  (0 <= inject_Z 2 / inject_Z 3)%Q ∧ (inject_Z 2 / inject_Z 3 <= 1)%Q.
Proof.
  assert (precision [1; 0; 1] [1; 1; 1] = Return (inject_Z 2 / inject_Z 3)%Q) as H
    by reflexivity.
  split; [exact H|].
  destruct (proj1 (precision_recall_range [1; 0; 1] [1; 1; 1]) _ H)
    as (H1 & H2 & _).
  exact (conj H1 H2).
Defined.

(** X13. [f1] returns a value exactly when some pair is a true positive.
    Without one it raises [ZeroDivisionError]: in [precision] or [recall]
    when there is no positive prediction or no positive label, and otherwise
    in its own division, [precision] and [recall] both having returned 0. *)
Theorem f1_needs_true_positive labels predictions :
  (succeeds (f1 labels predictions) ↔ 0 < true_positives (zip labels predictions)) ∧
  (true_positives (zip labels predictions) = 0 →
     f1 labels predictions = Raise ZeroDivisionError) ∧
  (true_positives (zip labels predictions) = 0 →
   0 < false_positives (zip labels predictions) →
   0 < false_negatives (zip labels predictions) →
     succeeds (precision labels predictions) ∧
     succeeds (recall labels predictions) ∧
     f1 labels predictions = Raise ZeroDivisionError).
Proof.
  pose proof (true_positives_nonneg (zip labels predictions)) as Htp.
  split; [|split].
  - split.
    + intros [f Hf].
      destruct (decide (true_positives (zip labels predictions) = 0)) as [H0|H0];
        [|lia].
      rewrite (f1_without_true_positive _ _ H0) in Hf. done.
    + intros Hpos. rewrite (f1_with_true_positive _ _ Hpos). by eexists.
  - apply f1_without_true_positive.
  - intros H0 Hfp Hfn.
    rewrite precision_true_div, recall_true_div.
    rewrite !true_div_nonzero by lia.
    split; [by eexists|]. split; [by eexists|].
    by apply f1_without_true_positive.
Qed.

Lemma f1_needs_true_positive_witness :
  true_positives (zip [1; 0] [0; 1]) = 0 ∧
  0 < false_positives (zip [1; 0] [0; 1]) ∧
  0 < false_negatives (zip [1; 0] [0; 1]) ∧
  succeeds (precision [1; 0] [0; 1]) ∧ succeeds (recall [1; 0] [0; 1]) ∧
  f1 [1; 0] [0; 1] = Raise ZeroDivisionError.
Proof.
  assert (true_positives (zip [1; 0] [0; 1]) = 0) as H0 by reflexivity.
  assert (0 < false_positives (zip [1; 0] [0; 1])) as H1 by reflexivity.
  assert (0 < false_negatives (zip [1; 0] [0; 1])) as H2 by reflexivity.
  split; [exact H0|]. split; [exact H1|]. split; [exact H2|].
  exact (proj2 (proj2 (f1_needs_true_positive [1; 0] [0; 1])) H0 H1 H2).
Defined.

(** X14. In exact arithmetic, the value of [f1] is the formula the notebook
    gives for it, TP / (TP + (FP + FN)/2), that is 2TP / (2TP + FP + FN);
    it is positive and at most 1. *)
Theorem f1_formula labels predictions f :
  f1 labels predictions = Return f →
  (f == inject_Z (2 * true_positives (zip labels predictions))
        / inject_Z (2 * true_positives (zip labels predictions)
                    + false_positives (zip labels predictions)
                    + false_negatives (zip labels predictions)))%Q ∧
  (0 < f)%Q ∧ (f <= 1)%Q.
Proof.
  intros Hf.
  pose proof (true_positives_nonneg (zip labels predictions)) as Htp.
  pose proof (false_positives_nonneg (zip labels predictions)) as Hfp.
  pose proof (false_negatives_nonneg (zip labels predictions)) as Hfn.
  destruct (decide (true_positives (zip labels predictions) = 0)) as [H0|H0].
  { by rewrite (f1_without_true_positive _ _ H0) in Hf. }
  rewrite f1_with_true_positive in Hf by lia. injection Hf as <-.
  rewrite harmonic_mean by lia.
  split; [reflexivity|]. split.
  - apply ratio_pos; lia.
  - apply ratio_range; lia.
Qed.

Lemma f1_formula_witness :
  ∃ f, f1 [1; 0; 1] [1; 1; 1] = Return f ∧ (0 < f)%Q ∧ (f <= 1)%Q.
Proof.
  eexists.
  assert (f1 [1; 0; 1] [1; 1; 1] = Return _) as H by reflexivity.
  split; [exact H|]. exact (proj2 (f1_formula [1; 0; 1] [1; 1; 1] _ H)).
Defined.

(** X15. Perfect predictions with at least one positive label score 1 on all
    three metrics. *)
Theorem perfect_predictions_score_one labels :
  1 ∈ labels →
  ∃ p r f, precision labels labels = Return p ∧ (p == 1)%Q ∧
           recall labels labels = Return r ∧ (r == 1)%Q ∧
           f1 labels labels = Return f ∧ (f == 1)%Q.
Proof.
  intros Hin.
  destruct (confusion_of_equal labels) as (Hfp & Hfn & Htp).
  specialize (Htp Hin).
  eexists _, _, _.
  split; [rewrite precision_true_div; apply true_div_nonzero; lia|].
  split; [rewrite Hfp; apply ratio_range; lia|].
  split; [rewrite recall_true_div; apply true_div_nonzero; lia|].
  split; [rewrite Hfn; apply ratio_range; lia|].
  split; [by apply f1_with_true_positive|].
  rewrite harmonic_mean by lia. rewrite Hfp, Hfn.
  apply ratio_range; lia.
Qed.

Lemma perfect_predictions_score_one_witness :
  1 ∈ [0; 1; 1] ∧
  ∃ p r f, precision [0; 1; 1] [0; 1; 1] = Return p ∧ (p == 1)%Q ∧
           recall [0; 1; 1] [0; 1; 1] = Return r ∧ (r == 1)%Q ∧
           f1 [0; 1; 1] [0; 1; 1] = Return f ∧ (f == 1)%Q.
Proof.
  assert (1 ∈ [0; 1; 1]) as H by (right; left).
  split; [exact H|]. exact (perfect_predictions_score_one [0; 1; 1] H).
Defined.

(** * Accuracy *)

Section Matches.

Lemma matches_cons l labels p predictions :
  matches (l :: labels) (p :: predictions)
  = (if decide (p = l) then 1 else 0) :: matches labels predictions.
Proof. reflexivity. Qed.

Lemma length_matches labels predictions :
  length labels = length predictions →
  length (matches labels predictions) = length labels.
Proof.
  intros Hlen. unfold matches. rewrite length_zip_with. lia.
Qed.

Lemma matches_sym labels predictions :
  matches labels predictions = matches predictions labels.
Proof.
  revert predictions.
  induction labels as [|l labels IH]; intros [|p predictions]; try done.
  rewrite !matches_cons, IH. f_equal. by repeat case_decide.
Qed.

(** The number of agreeing positions. *)
Lemma matches_sum labels predictions :
  length labels = length predictions →
  0 ≤ foldr Z.add 0 (matches labels predictions) ≤ Z.of_nat (length labels) ∧
  (foldr Z.add 0 (matches labels predictions) = Z.of_nat (length labels)
     ↔ predictions = labels) ∧
  (foldr Z.add 0 (matches labels predictions) = 0
     ↔ Forall2 (λ p l, p ≠ l) predictions labels).
Proof.
  revert predictions.
  induction labels as [|l labels IH]; intros [|p predictions] Hlen;
    [by repeat split; try constructor | done | done |].
  - destruct (IH predictions) as (Hrange & Hall & Hnone); [by injection Hlen|].
    rewrite matches_cons. simpl foldr. simpl length.
    rewrite Forall2_cons. destruct (decide (p = l)) as [->|Hne].
    + split; [lia|]. split.
      * split; [intros ?; f_equal; apply Hall; lia|].
        intros [= ->]. assert (foldr Z.add 0 (matches labels labels)
                               = Z.of_nat (length labels)) by by apply Hall.
        lia.
      * split; [lia | by intros [? _]].
    + split; [lia|]. split.
      * split; [lia | by intros [= ? _]].
      * rewrite Z.add_0_l, Hnone. tauto.
Qed.

End Matches.

(** X16. For two non-empty arrays of one length, [accuracy] is a number
    between 0 and 1: it is 1 exactly when the predictions equal the labels
    and 0 exactly when they differ at every position. *)
Theorem accuracy_range labels predictions :
  length labels = length predictions → labels ≠ [] →
  ∃ q, accuracy labels predictions = Num q ∧
       (0 <= q)%Q ∧ (q <= 1)%Q ∧
       ((q == 1)%Q ↔ predictions = labels) ∧
       ((q == 0)%Q ↔ Forall2 (λ p l, p ≠ l) predictions labels).
Proof.
  intros Hlen Hne.
  destruct (matches_sum labels predictions Hlen) as (Hrange & Hall & Hnone).
  pose proof (length_matches labels predictions Hlen) as Hlm.
  unfold accuracy, np_mean.
  destruct (matches labels predictions) as [|m ms] eqn:Hm.
  { destruct labels; [done | discriminate Hlm]. }
  eexists. split; [reflexivity|].
  rewrite Hlm.
  destruct (ratio_range (foldr Z.add 0 (m :: ms)) (Z.of_nat (length labels)))
    as (H1 & H2 & H3 & H4); [lia | lia | destruct labels; [done | simpl; lia] |].
  split; [done|]. split; [done|]. split; [by rewrite H3 | by rewrite H4].
Qed.

Lemma accuracy_range_witness :
  length [1; 0; 2] = length [1; 1; 2] ∧ [1; 0; 2] ≠ [] ∧
  ∃ q, accuracy [1; 0; 2] [1; 1; 2] = Num q ∧ (0 <= q)%Q ∧ (q <= 1)%Q.
Proof.
  assert (length [1; 0; 2] = length [1; 1; 2]) as H by reflexivity.
  assert ([1; 0; 2] ≠ []) as Hne by discriminate.
  split; [exact H|]. split; [exact Hne|].
  destruct (accuracy_range [1; 0; 2] [1; 1; 2] H Hne) as (q & Hq & H1 & H2 & _).
  exact (ex_intro _ q (conj Hq (conj H1 H2))).
Defined.

(** X17. On two arrays of one length, [accuracy] does not depend on which
    array is called labels and which predictions, and it gives [nan] exactly
    when the arrays are empty. *)
Theorem accuracy_symmetric_nan labels predictions :
  length labels = length predictions →
  accuracy labels predictions = accuracy predictions labels ∧
  (accuracy labels predictions = NaN ↔ labels = []).
Proof.
  intros Hlen. split; [unfold accuracy; by rewrite matches_sym|].
  pose proof (length_matches labels predictions Hlen) as Hlm.
  unfold accuracy, np_mean.
  destruct (matches labels predictions) as [|m ms];
    destruct labels as [|l labels]; try done.
Qed.

Lemma accuracy_symmetric_nan_witness :
  length [1; 0; 2] = length [1; 1; 2] ∧
  accuracy [1; 0; 2] [1; 1; 2] = accuracy [1; 1; 2] [1; 0; 2] ∧
  length ([] : list Z) = length ([] : list Z) ∧ accuracy [] [] = NaN.
Proof.
  assert (length [1; 0; 2] = length [1; 1; 2]) as H by reflexivity.
  assert (length ([] : list Z) = length ([] : list Z)) as H0 by reflexivity.
  split; [exact H|].
  split; [exact (proj1 (accuracy_symmetric_nan [1; 0; 2] [1; 1; 2] H))|].
  split; [exact H0|].
  exact (proj2 (proj2 (accuracy_symmetric_nan [] [] H0)) eq_refl).
Defined.

(** * The cell as a whole, and ranks by counting *)

Section Cell.

Lemma signed_rank_cell_fits data median :
  length data = 0%nat ∨ length data = table_rows →
  signed_rank_cell data median = s_plus data median.
Proof.
  intros Hlen. unfold signed_rank_cell. rewrite s_plus_sum. simpl.
  by rewrite decide_True.
Qed.

Lemma signed_rank_cell_misfit data median :
  ¬ (length data = 0%nat ∨ length data = table_rows) →
  signed_rank_cell data median = Raise ValueError.
Proof.
  intros Hlen. unfold signed_rank_cell. rewrite s_plus_sum. simpl.
  by rewrite decide_False.
Qed.

Lemma filter_lt_nil a l : Forall (λ y, a ≤ y) l → filter (λ b, b < a) l = [].
Proof.
  induction 1 as [|y l Hy _ IH]; [done|].
  by rewrite filter_cons, decide_False by lia.
Qed.

(** In an ascending array without repetition, an element stands after
    exactly the elements smaller than it. *)
Lemma sorted_position l idx a :
  StronglySorted Z.le l → NoDup l → l !! idx = Some a →
  length (filter (λ b, b < a) l) = idx.
Proof.
  intros Hsorted. revert idx.
  induction Hsorted as [|x l Hl IH Hall]; intros idx Hnd Hidx; [done|].
  apply NoDup_cons in Hnd as [Hx Hnd]. rewrite filter_cons.
  destruct idx as [|idx]; simpl in Hidx.
  - injection Hidx as ->. rewrite decide_False by lia.
    by rewrite filter_lt_nil.
  - apply list_elem_of_lookup_2 in Hidx as Hin.
    assert (x ≤ a) by by apply (proj1 (Forall_forall _ _) Hall).
    assert (x ≠ a) by (intros ->; done).
    rewrite decide_True by lia. simpl. f_equal. by apply IH.
Qed.

(** Without ties, the rank the second loop meets a magnitude at is its rank
    by counting. *)
Lemma sorted_lookup_magnitude_rank ds idx d :
  NoDup (absolute_diffs ds) →
  sorted_absolute_diffs ds !! idx = Some (Z.abs d) →
  Z.of_nat idx + 1 = magnitude_rank ds d.
Proof.
  intros Hnd Hidx. unfold magnitude_rank.
  rewrite <-(np_sort_Permutation (absolute_diffs ds)).
  rewrite (sorted_position _ idx); [lia | apply np_sort_sorted | | done].
  by rewrite np_sort_Permutation.
Qed.

Lemma rank_of_magnitude_rank ds d :
  NoDup (absolute_diffs ds) → d ∈ ds →
  rank_of (sorted_absolute_diffs ds) (Z.abs d) = Some (magnitude_rank ds d).
Proof.
  intros Hnd Hd.
  assert (Z.abs d ∈ sorted_absolute_diffs ds) as Hin.
  { apply elem_of_np_sort. rewrite absolute_diffs_fmap.
    apply list_elem_of_fmap. eauto. }
  apply list_elem_of_lookup in Hin as [idx Hidx].
  rewrite (rank_of_lookup _ idx); [|by unfold sorted_absolute_diffs; rewrite np_sort_Permutation|done].
  f_equal. by apply sorted_lookup_magnitude_rank.
Qed.

Lemma observation_ranks_magnitude ds :
  NoDup (absolute_diffs ds) →
  observation_ranks ds = Some <$> (magnitude_rank ds <$> ds).
Proof.
  intros Hnd. unfold observation_ranks.
  rewrite absolute_diffs_fmap, <-!list_fmap_compose.
  apply list_fmap_ext. intros i d Hd. simpl.
  apply rank_of_magnitude_rank; [done|]. by eapply list_elem_of_lookup_2.
Qed.

Lemma nonneg_ranks_magnitude ds :
  NoDup (absolute_diffs ds) →
  nonneg_ranks ds = magnitude_rank ds <$> filter (λ d, 0 ≤ d) ds.
Proof.
  intros Hnd. unfold nonneg_ranks. apply list_fmap_ext. intros i d Hd.
  unfold own_rank. rewrite rank_of_magnitude_rank; [done..|].
  apply list_elem_of_lookup_2 in Hd. by apply list_elem_of_filter in Hd as [_ ?].
Qed.

End Cell.

(** C3. A difference of zero is counted with the positive ones.  On the
    sample 30, 31, ..., 46 with centre 30 the cell prints s+ = 153, the sum
    of all 17 ranks, although only N = 16 differences are nonzero and
    N(N+1)/2 = 136; no difference is negative, so nothing is left for the
    ranks of the negative differences. *)
Theorem centre_observation_breaks_rank_sum_identity :
  signed_rank_cell centred_sample 30 = Return 153 ∧
  nonzero_count centred_sample 30 = 16%nat ∧
  rank_total (nonzero_count centred_sample 30) = 136 ∧
  Forall (λ d, 0 ≤ d) (diffs centred_sample 30).
Proof.
  split; [vm_compute; reflexivity|]. split; [vm_compute; reflexivity|].
  split; [vm_compute; reflexivity|].
  vm_compute. repeat constructor; discriminate.
Qed.

(** C4, as stated, fails: on an empty sample and on a sample of 17
    observations that sit on the centre the cell prints a number; no error
    is raised. *)
Lemma degenerate_sample_not_rejected :
  signed_rank_cell [] 30 = Return 0 ∧
  signed_rank_cell (replicate 17 30) 30 = Return 153 ∧
  ¬ (∃ e, signed_rank_cell [] 30 = Raise e) ∧
  ¬ (∃ e, signed_rank_cell (replicate 17 30) 30 = Raise e).
Proof.
  split; [vm_compute; reflexivity|]. split; [vm_compute; reflexivity|].
  split; intros [e He]; vm_compute in He; discriminate.
Qed.

(** C4, amended.  Degenerate input meets no error path of its own: when
    every observation equals the centre, [s_plus] is computed and returned,
    0 for the empty sample.  The cell around it fails only in its table
    lines, with [ValueError], and only when the sample has neither 0 nor 17
    observations. *)
Theorem degenerate_sample_no_error_path data median :
  Forall (λ x, x = median) data →
  succeeds (s_plus data median) ∧
  (data = [] → signed_rank_cell data median = Return 0) ∧
  (length data = table_rows → succeeds (signed_rank_cell data median)) ∧
  (∀ e, signed_rank_cell data median = Raise e →
     e = ValueError ∧ length data ≠ 0%nat ∧ length data ≠ table_rows).
Proof.
  intros _. split; [apply s_plus_succeeds|]. split; [by intros ->|]. split.
  - intros Hlen. rewrite signed_rank_cell_fits by by right.
    apply s_plus_succeeds.
  - intros e He.
    destruct (decide (length data = 0%nat ∨ length data = table_rows)) as [Hfit|Hfit].
    + rewrite signed_rank_cell_fits, s_plus_sum in He by done. done.
    + rewrite signed_rank_cell_misfit in He by done. injection He as <-.
      split; [done|]. split; intros ?; apply Hfit; [by left | by right].
Qed.

Lemma degenerate_sample_no_error_path_witness :
  Forall (λ x, x = 30) (replicate 17 30) ∧
  succeeds (s_plus (replicate 17 30) 30) ∧
  succeeds (signed_rank_cell (replicate 17 30) 30).
Proof.
  assert (Forall (λ x, x = 30) (replicate 17 30)) as H
    by (vm_compute; repeat constructor).
  split; [exact H|].
  destruct (degenerate_sample_no_error_path (replicate 17 30) 30 H)
    as (H1 & _ & H2 & _).
  exact (conj H1 (H2 eq_refl)).
Defined.

(** C5. Counted with the positive differences, a zero difference takes s+
    over the bound.  On the sample 30, 31, ..., 46 with centre 30 the cell
    prints s+ = 153, more than N(N+1)/2 = 136 for the N = 16 nonzero
    differences. *)
Theorem centre_observation_breaks_bound :
  signed_rank_cell centred_sample 30 = Return 153 ∧
  ¬ (∃ v, signed_rank_cell centred_sample 30 = Return v ∧
          0 ≤ v ≤ rank_total (nonzero_count centred_sample 30)).
Proof.
  split; [vm_compute; reflexivity|].
  intros (v & Hv & Hb). vm_compute in Hv. simplify_eq.
  vm_compute in Hb. destruct Hb as [_ Hb]. by apply Hb.
Qed.

(** C7. A zero difference keeps its sign ['+'] when the differences are
    negated.  The sample 30, 31, ..., 46 with centre 30 has no negative
    difference, so the sum of the ranks of its negative differences is 0;
    on the reflected sample 30, 29, ..., 14, whose differences are the
    negated ones, the cell prints s+ = 1, the rank of the zero. *)
Theorem centre_observation_breaks_reflection :
  diffs ((λ x, 60 - x) <$> centred_sample) 30 = Z.opp <$> diffs centred_sample 30 ∧
  signed_rank_cell centred_sample 30 = Return 153 ∧
  Forall (λ d, 0 ≤ d) (diffs centred_sample 30) ∧
  plus_ranks (diffs ((λ x, 60 - x) <$> centred_sample) 30) = [1] ∧
  signed_rank_cell ((λ x, 60 - x) <$> centred_sample) 30 = Return 1.
Proof.
  split; [vm_compute; reflexivity|]. split; [vm_compute; reflexivity|].
  split; [vm_compute; repeat constructor; discriminate|].
  split; vm_compute; reflexivity.
Qed.

(** C8. When the absolute differences are pairwise distinct, every
    observation has one difference, one absolute difference and one rank:
    its magnitude stands in the sorted array of the second loop at one
    position only, whose rank idx+1 is one more than the number of
    observations of smaller magnitude.  The ranks handed out are 1..N in
    order, the ranks of the observations in sample order are a rearrangement
    of 1..N, and s+ is the sum of these ranks over the observations that do
    not lie below the centre. *)
Theorem ranks_permute_without_ties data median :
  NoDup (absolute_diffs (diffs data median)) →
  (∀ i x, data !! i = Some x →
     diffs data median !! i = Some (x - median) ∧
     absolute_diffs (diffs data median) !! i = Some (Z.abs (x - median)) ∧
     (∀ r, (r, Z.abs (x - median)) ∈ ranked (sorted_absolute_diffs (diffs data median))
           ↔ r = magnitude_rank (diffs data median) (x - median)) ∧
     observation_ranks (diffs data median) !! i
       = Some (Some (magnitude_rank (diffs data median) (x - median)))) ∧
  fst <$> ranked (sorted_absolute_diffs (diffs data median))
    = seqZ 1 (Z.of_nat (length data)) ∧
  magnitude_rank (diffs data median) <$> diffs data median
    ≡ₚ seqZ 1 (Z.of_nat (length data)) ∧
  s_plus data median
    = Return (sum_ranks (magnitude_rank (diffs data median)
                           <$> filter (λ d, 0 ≤ d) (diffs data median))).
Proof.
  intros Hnd. split; [|split; [|split]].
  - intros i x Hi.
    assert (diffs data median !! i = Some (x - median)) as Hd.
    { unfold diffs. by rewrite list_lookup_fmap, Hi. }
    assert (x - median ∈ diffs data median) as Hin
      by by eapply list_elem_of_lookup_2.
    split; [done|].
    split; [by rewrite absolute_diffs_fmap, list_lookup_fmap, Hd|].
    split.
    + intros r. rewrite elem_of_ranked. split.
      * intros (idx & Hidx & ->). by apply sorted_lookup_magnitude_rank.
      * intros ->.
        assert (Z.abs (x - median) ∈ sorted_absolute_diffs (diffs data median)) as Hs.
        { apply elem_of_np_sort. rewrite absolute_diffs_fmap.
          apply list_elem_of_fmap. eauto. }
        apply list_elem_of_lookup in Hs as [idx Hidx]. exists idx.
        split; [done|]. symmetry. by apply sorted_lookup_magnitude_rank.
    + by rewrite observation_ranks_magnitude, !list_lookup_fmap, Hd.
  - by rewrite fst_ranked, length_sorted_absolute_diffs, length_diffs.
  - destruct (observation_ranks_Permutation _ Hnd) as (rs & Hrs & Hp).
    rewrite observation_ranks_magnitude in Hrs by done.
    apply (inj (fmap Some)) in Hrs. by rewrite Hrs, Hp, length_diffs.
  - rewrite s_plus_sum, <-nonneg_ranks_magnitude by done. f_equal.
    by apply sum_ranks_Permutation, plus_ranks_nonneg_ranks.
Qed.

Lemma ranks_permute_without_ties_witness :
  NoDup (absolute_diffs (diffs [31; 27; 32] 30)) ∧
  magnitude_rank (diffs [31; 27; 32] 30) <$> diffs [31; 27; 32] 30
    ≡ₚ seqZ 1 (Z.of_nat (length [31; 27; 32])) ∧
  s_plus [31; 27; 32] 30
    = Return (sum_ranks (magnitude_rank (diffs [31; 27; 32] 30)
                           <$> filter (λ d, 0 ≤ d) (diffs [31; 27; 32] 30))).
Proof.
  assert (NoDup (absolute_diffs (diffs [31; 27; 32] 30))) as H
    by (apply (@bool_decide_unpack _ (NoDup_dec _)); vm_compute; exact I).
  split; [exact H|].
  exact (proj2 (proj2 (ranks_permute_without_ties [31; 27; 32] 30 H))).
Defined.

(** C9, as stated, fails: division by zero is not the only way the metric
    code fails.  On arrays of 3 labels and 2 predictions the comparison in
    [accuracy] raises [ValueError]. *)
Lemma accuracy_fails_otherwise :
  accuracy_of_arrays [1; 0; 1] [1; 0] = Raise ValueError ∧
  ¬ (accuracy_of_arrays [1; 0; 1] [1; 0] = Raise ZeroDivisionError) ∧
  ¬ succeeds (accuracy_of_arrays [1; 0; 1] [1; 0]).
Proof.
  split; [reflexivity|]. split; [discriminate|]. by intros [q Hq].
Qed.
